(** * Validator node: TSS coordination core

    A shallow embedding of the parts of the validator node that the
    specification talks about, and what holds of them.

    The model:
    - [Hex]       : the hexadecimal conversions of Node's [Buffer] and of
                    [BigInt] that the services rely on;
    - [KeyStore]  : the key store ([HSMKeyStore], [FileBasedKeyStore]);
    - [Node]      : the signal path of [ChainMonitorService] and
                    [ValidatorNode];
    - [DKG]       : the key generation ceremony ([DKGService]);
    - [Spec]      : the formulas of the specification the code is compared
                    with;
    - [Example]   : concrete primitives, configurations and runs.

    The facts: [HexFacts], [KeyStoreFacts], [NodeFacts], [ShareFacts],
    [RunFacts] and [Scenarios].

    Log lines are modelled where a statement reads them (key store, signal
    path) and left out elsewhere; their pictographs are left out. *)

From Stdlib Require Import ZArith NArith Lia List Ascii String Bool.
From stdpp Require Import base option list strings pretty gmap.

Local Open Scope string_scope.
Local Open Scope list_scope.
Local Open Scope Z_scope.

(* ===================================================================== *)
(** * Exceptions and promises *)
(* ===================================================================== *)

(** A call either returns a value or throws; [await] on a rejected promise
    rethrows at the caller. *)
Inductive result (E A : Type) : Type :=
| Ok (a : A)
| Throw (e : E).
Arguments Ok {E A} a.
Arguments Throw {E A} e.

Definition rbind {E A B} (m : result E A) (k : A -> result E B) : result E B :=
  match m with
  | Ok a => k a
  | Throw e => Throw e
  end.


(* ===================================================================== *)
(** * Hexadecimal text, [Buffer] and [BigInt] *)
(* ===================================================================== *)

Module Hex.

(** Bytes of a [Buffer]. *)
Definition bytes := list Byte.byte.

Definition byte_val (b : Byte.byte) : Z := Z.of_N (Byte.to_N b).

(** The byte with value [n mod 256]. *)
Definition byte_of (n : Z) : Byte.byte :=
  match Byte.of_N (Z.to_N (n mod 256)) with
  | Some b => b
  | None => Byte.x00
  end.

(** Lower-case digit of a nibble, as [toString('hex')] and
    [toString(16)] print it. *)
Definition hexchar (d : Z) : ascii :=
  match d with
  | 0 => "0" | 1 => "1" | 2 => "2" | 3 => "3"
  | 4 => "4" | 5 => "5" | 6 => "6" | 7 => "7"
  | 8 => "8" | 9 => "9" | 10 => "a" | 11 => "b"
  | 12 => "c" | 13 => "d" | 14 => "e" | _ => "f"
  end%char.

(** Value of a hexadecimal digit; both cases are read. *)
Definition hexval (c : ascii) : option Z :=
  let n := Z.of_N (N_of_ascii c) in
  if (48 <=? n) && (n <=? 57) then Some (n - 48)
  else if (97 <=? n) && (n <=? 102) then Some (n - 87)
  else if (65 <=? n) && (n <=? 70) then Some (n - 55)
  else None.

(** [buf.toString('hex')]: two digits per byte. *)
Fixpoint toString_hex (bs : bytes) : string :=
  match bs with
  | [] => EmptyString
  | b :: rest =>
      String (hexchar (byte_val b / 16))
        (String (hexchar (byte_val b mod 16)) (toString_hex rest))
  end.

(** [Buffer.from(s, 'hex')]: pairs of digits are decoded from the left;
    decoding stops at the first pair that is not two hexadecimal digits,
    and a trailing single character is dropped. *)
Fixpoint from_hex (s : string) : bytes :=
  match s with
  | String c1 (String c2 rest) =>
      match hexval c1, hexval c2 with
      | Some h, Some l => byte_of (16 * h + l) :: from_hex rest
      | _, _ => []
      end
  | _ => []
  end.

(** [s.slice(n)] for [0 <= n]. *)
Fixpoint slice_from (n : nat) (s : string) : string :=
  match n, s with
  | O, _ => s
  | S n', String _ rest => slice_from n' rest
  | S _, EmptyString => EmptyString
  end.

(** [s.slice(0, n)]. *)
Fixpoint slice_to (n : nat) (s : string) : string :=
  match n, s with
  | S n', String c rest => String c (slice_to n' rest)
  | _, _ => EmptyString
  end.

(** Big-endian value of a digit list in base 16. *)
Definition of_digits (ds : list Z) : Z :=
  fold_left (fun acc d => 16 * acc + d) ds 0.

(** Digits of [n], most significant first; [fuel] bounds their number. *)
Fixpoint to_digits (fuel : nat) (n : Z) (acc : list Z) : list Z :=
  match fuel with
  | O => acc
  | S fuel' =>
      if n =? 0 then acc
      else to_digits fuel' (n / 16) (n mod 16 :: acc)
  end.

Definition string_of_digits (ds : list Z) : string :=
  string_of_list_ascii (map hexchar ds).

(** [n.toString(16)] for a [BigInt]; a negative value prints its sign. *)
Definition toString16 (n : Z) : string :=
  if n =? 0 then "0"
  else if n <? 0 then
    String "-"%char
      (string_of_digits (to_digits (S (Z.to_nat (Z.log2 (- n)))) (- n) []))
  else string_of_digits (to_digits (S (Z.to_nat (Z.log2 n))) n []).

(** [s.padStart(n, '0')]. *)
Definition padStart (n : nat) (s : string) : string :=
  string_of_list_ascii (repeat "0"%char (n - String.length s)) +:+ s.

(** Line terminators and blanks that [BigInt(...)] strips from the ends of
    its argument (the ones below 128). *)
Definition is_space (c : ascii) : bool :=
  let n := Z.of_N (N_of_ascii c) in
  ((9 <=? n) && (n <=? 13)) || (n =? 32).

Fixpoint trim_end_list (cs : list ascii) : list ascii :=
  match cs with
  | [] => []
  | c :: rest =>
      match trim_end_list rest with
      | [] => if is_space c then [] else [c]
      | r => c :: r
      end
  end.

Fixpoint digits_of_chars (cs : list ascii) : option (list Z) :=
  match cs with
  | [] => Some []
  | c :: rest =>
      match hexval c, digits_of_chars rest with
      | Some d, Some ds => Some (d :: ds)
      | _, _ => None
      end
  end.

(** [BigInt('0x' + s)]: the digits of [s] read in base 16.  [None] stands
    for the [SyntaxError] thrown when [s] (blanks at its end apart) is
    empty or holds a character that is not a hexadecimal digit. *)
Definition BigInt_0x (s : string) : option Z :=
  match trim_end_list (list_ascii_of_string s) with
  | [] => None
  | cs => of_digits <$> digits_of_chars cs
  end.

(** Value of a byte string read as a big-endian natural number. *)
Definition be_value (bs : bytes) : Z :=
  fold_left (fun acc b => 256 * acc + byte_val b) bs 0.

(** [Buffer.from(hex, 'hex')] of a 64-digit rendering, as round 5 builds
    the key share. *)
Definition buffer_of_bigint (n : Z) : bytes :=
  from_hex (padStart 64 (toString16 n)).

(** ** Digit lists, to state what the conversions do *)

(** A digit of base 16. *)
Definition digit (d : Z) : Prop := 0 <= d < 16.



(** The two digits of every byte, as [toString_hex] prints them. *)
Definition byte_digits (bs : bytes) : list Z :=
  flat_map (fun b => [byte_val b / 16; byte_val b mod 16]) bs.

End Hex.

Import Hex.

(** A JavaScript [Error] with its message. *)
Inductive error : Type :=
| Error (msg : string).

(** [crypto.randomBytes(n)] reads the next [n] bytes of the entropy source;
    the source is a stream and the state keeps the position in it. *)
Definition entropy := nat -> Byte.byte.

Definition randomBytes (src : entropy) (n pos : nat) : bytes * nat :=
  (map src (seq pos n), (pos + n)%nat).

(** [buf.subarray(a, b)] and [buf.subarray(a)]; both clamp to the buffer. *)
Definition subarray (a b : nat) (buf : bytes) : bytes :=
  take (b - a) (drop a buf).

Definition subarray_from (a : nat) (buf : bytes) : bytes := drop a buf.

(* ===================================================================== *)
(** * The primitives of Node's [crypto] and of the curve library *)
(* ===================================================================== *)

(** The services call these; their code is not part of the repository. *)
Class Primitives : Type := {
  (** [crypto.pbkdf2Sync(password, salt, iterations, keylen, digest)] *)
  pbkdf2Sync : string -> bytes -> Z -> Z -> string -> bytes;
  (** [createCipheriv(alg, key, iv)], [update(pt)], [final()], [getAuthTag()]:
      ciphertext and tag *)
  cipher : string -> bytes -> bytes -> bytes -> bytes * bytes;
  (** [createDecipheriv(alg, key, iv)], [setAuthTag(tag)], [update(ct)],
      [final()]; [final] throws when the tag does not authenticate *)
  decipher : string -> bytes -> bytes -> bytes -> bytes -> result error bytes;
  (** [crypto.createHash('sha256')] over the concatenated updates *)
  sha256 : bytes -> bytes;
  (** [schnorr.sign(msg, key)] and [schnorr.getPublicKey(key)] *)
  schnorr_sign : bytes -> bytes -> result error bytes;
  schnorr_getPublicKey : bytes -> result error bytes;
  (** [G.multiply(k).toHex()] *)
  G_multiply_hex : Z -> result error string;
  (** [ProjectivePoint.fromHex(a).add(ProjectivePoint.fromHex(b))], kept in
      the library's point type, and [toRawBytes(true)] *)
  point : Type;
  point_fromHex : bytes -> result error point;
  point_add : point -> point -> point;
  point_toRawBytes : point -> bytes;
}.

(** What the key store relies on: deciphering under the same key, iv and
    tag returns the plaintext, and the GCM tag has 16 bytes. *)
Class AuthenticatedCipher `{Primitives} : Prop := {
  decipher_cipher : forall alg key iv pt,
    decipher alg key iv (snd (cipher alg key iv pt)) (fst (cipher alg key iv pt))
    = Ok pt;
  tag_length : forall alg key iv pt,
    length (snd (cipher alg key iv pt)) = 16%nat;
}.

(* ===================================================================== *)
(** * Key store *)
(* ===================================================================== *)

Module KeyStore.

Inductive Provider :=
| AWS_CLOUDHSM | AZURE_KEY_VAULT | GOOGLE_CLOUD_HSM | YUBIHSM | FILE_BASED.

Record Encryption := { enc_algorithm : string; password : string }.

Record HSMConfig := {
  provider : Provider;
  keyPath : option string;
  encryption : option Encryption;
}.

Record HSMKeyMetadata := {
  keyId : string;
  algorithm : string;
  createdAt : Z;
  extractable : bool;
  usages : list string;
}.

(** Files of the host, by path, and the log lines written so far.  The
    key directory exists once [initialize] has run, and a write to it
    succeeds. *)
Record Host := {
  files : gmap string bytes;
  log : list string;
}.

Definition write_file (path : string) (data : bytes) (h : Host) : Host :=
  {| files := <[path := data]> (files h); log := log h |}.

Definition read_file (path : string) (h : Host) : result error bytes :=
  match files h !! path with
  | Some data => Ok data
  | None => Throw (Error ("ENOENT: no such file or directory, open '" +:+ path +:+ "'"))
  end.

Definition logger (line : string) (h : Host) : Host :=
  {| files := files h; log := log h ++ [line] |}.

(** [path.join(dir, name)], without its normalisation of the result. *)
Definition path_join (dir name : string) : string := dir +:+ "/" +:+ name.

(** [this.config.encryption?.password], read for its truth value: a
    password that is absent or empty counts as none. *)
Definition configured_password (cfg : HSMConfig) : option string :=
  match encryption cfg with
  | Some e => if String.eqb (password e) "" then None else Some (password e)
  | None => None
  end.

Definition bool_text (b : bool) : string := if b then "true" else "false".

Section FileBased.
Context `{Primitives}.
Variable src : entropy.
(** [process.cwd()] and [JSON.stringify(metadata, null, 2)]. *)
Variable cwd : string.
Variable JSON_stringify : HSMKeyMetadata -> string.

Definition keyDir (cfg : HSMConfig) : string :=
  match keyPath cfg with
  | Some p => if String.eqb p "" then path_join cwd "keys" else p
  | None => path_join cwd "keys"
  end.

Definition keyshare_path (cfg : HSMConfig) (md : HSMKeyMetadata) : string :=
  path_join (keyDir cfg) (keyId md +:+ ".keyshare").

Definition metadata_path (cfg : HSMConfig) (md : HSMKeyMetadata) : string :=
  path_join (keyDir cfg) (keyId md +:+ ".metadata.json").

(** Encrypt key share using AES-256-GCM. *)
Definition encryptKeyShare (keyShare : bytes) (pw : string) (pos : nat)
  : bytes * nat :=
  let '(salt, pos1) := randomBytes src 32 pos in
  let key := pbkdf2Sync pw salt 100000 32 "sha256" in
  let '(iv, pos2) := randomBytes src 16 pos1 in
  let '(encrypted, authTag) := cipher "aes-256-gcm" key iv keyShare in
  (salt ++ iv ++ authTag ++ encrypted, pos2).

(** Decrypt key share using AES-256-GCM. *)
Definition decryptKeyShare (encryptedData : bytes) (pw : string)
  : result error bytes :=
  let salt := subarray 0 32 encryptedData in
  let iv := subarray 32 48 encryptedData in
  let authTag := subarray 48 64 encryptedData in
  let encrypted := subarray_from 64 encryptedData in
  let key := pbkdf2Sync pw salt 100000 32 "sha256" in
  decipher "aes-256-gcm" key iv authTag encrypted.

Definition file_storeKeyShare (cfg : HSMConfig) (keyShare : bytes)
    (metadata : HSMKeyMetadata) (pos : nat) (h : Host)
  : result error string * Host * nat :=
  let h := logger ("Storing key share to file: " +:+ keyId metadata) h in
  let keyPath := keyshare_path cfg metadata in
  let metadataPath := metadata_path cfg metadata in
  let '(dataToStore, pos) :=
    match configured_password cfg with
    | Some pw => encryptKeyShare keyShare pw pos
    | None => (keyShare, pos)
    end in
  let h := write_file keyPath dataToStore h in
  let h := write_file metadataPath
             (list_byte_of_string (JSON_stringify metadata)) h in
  let h := logger ("Key share stored to: " +:+ keyPath +:+ " (encrypted: "
                    +:+ bool_text (bool_decide (is_Some (configured_password cfg)))
                    +:+ ")") h in
  (Ok (keyId metadata), h, pos).

(** Read and decrypt key share: the common start of [sign] and
    [getPublicKey]. *)
Definition load_keyShare (cfg : HSMConfig) (kid : string) (h : Host)
  : result error bytes :=
  let keyPath := path_join (keyDir cfg) (kid +:+ ".keyshare") in
  rbind (read_file keyPath h) (fun encryptedKey =>
    match configured_password cfg with
    | Some pw => decryptKeyShare encryptedKey pw
    | None => Ok encryptedKey
    end).

Definition file_sign (cfg : HSMConfig) (messageHash : bytes) (kid : string)
    (h : Host) : result error bytes * Host :=
  let h := logger ("Signing with file-based key: " +:+ kid) h in
  (rbind (load_keyShare cfg kid h) (schnorr_sign messageHash), h).

Definition file_getPublicKey (cfg : HSMConfig) (kid : string) (h : Host)
  : result error bytes * Host :=
  let h := logger ("Getting public key for: " +:+ kid) h in
  (rbind (load_keyShare cfg kid h) schnorr_getPublicKey, h).

(** The factory [HSMKeyStore]: each operation goes to the implementation
    chosen by the provider; the constructor throws for the providers
    that have none. *)
Definition constructor (cfg : HSMConfig) : result error Provider :=
  match provider cfg with
  | GOOGLE_CLOUD_HSM => Throw (Error "Google Cloud HSM not yet implemented")
  | YUBIHSM => Throw (Error "YubiHSM not yet implemented")
  | p => Ok p
  end.

Definition storeKeyShare (cfg : HSMConfig) (keyShare : bytes)
    (metadata : HSMKeyMetadata) (pos : nat) (h : Host)
  : result error string * Host * nat :=
  match provider cfg with
  | FILE_BASED => file_storeKeyShare cfg keyShare metadata pos h
  | AWS_CLOUDHSM =>
      let h := logger ("Storing key share in AWS CloudHSM: " +:+ keyId metadata) h in
      let h := logger ("Key share stored: " +:+ keyId metadata) h in
      (Ok (keyId metadata), h, pos)
  | AZURE_KEY_VAULT =>
      let h := logger ("Storing key share in Azure Key Vault: " +:+ keyId metadata) h in
      (Ok (keyId metadata), h, pos)
  | GOOGLE_CLOUD_HSM => (Throw (Error "Google Cloud HSM not yet implemented"), h, pos)
  | YUBIHSM => (Throw (Error "YubiHSM not yet implemented"), h, pos)
  end.

Definition sign (cfg : HSMConfig) (messageHash : bytes) (kid : string)
    (h : Host) : result error bytes * Host :=
  match provider cfg with
  | FILE_BASED => file_sign cfg messageHash kid h
  | AWS_CLOUDHSM =>
      (Throw (Error "AWS CloudHSM not configured - set AWS credentials"),
       logger ("Signing with AWS CloudHSM key: " +:+ kid) h)
  | AZURE_KEY_VAULT =>
      (Throw (Error "Azure Key Vault not configured"),
       logger ("Signing with Azure Key Vault key: " +:+ kid) h)
  | GOOGLE_CLOUD_HSM => (Throw (Error "Google Cloud HSM not yet implemented"), h)
  | YUBIHSM => (Throw (Error "YubiHSM not yet implemented"), h)
  end.

Definition getPublicKey (cfg : HSMConfig) (kid : string) (h : Host)
  : result error bytes * Host :=
  match provider cfg with
  | FILE_BASED => file_getPublicKey cfg kid h
  | AWS_CLOUDHSM =>
      (Throw (Error "AWS CloudHSM not configured - set AWS credentials"),
       logger ("Getting public key from AWS CloudHSM: " +:+ kid) h)
  | AZURE_KEY_VAULT => (Throw (Error "Azure Key Vault not configured"), h)
  | GOOGLE_CLOUD_HSM => (Throw (Error "Google Cloud HSM not yet implemented"), h)
  | YUBIHSM => (Throw (Error "YubiHSM not yet implemented"), h)
  end.

(** [fs.unlink(path)]: removes the file, and rejects when there is none. *)
Definition unlink (path : string) (h : Host) : result error unit * Host :=
  match files h !! path with
  | Some _ => (Ok tt, {| files := delete path (files h); log := log h |})
  | None =>
      (Throw (Error ("ENOENT: no such file or directory, unlink '" +:+ path +:+ "'")),
       h)
  end.

(** [FileBasedKeyStore.deleteKey]: the key share file first, then the
    metadata; a rejected [unlink] ends the call. *)
Definition file_deleteKey (cfg : HSMConfig) (kid : string) (h : Host)
  : result error unit * Host :=
  let h := logger ("Deleting key: " +:+ kid) h in
  let keyPath := path_join (keyDir cfg) (kid +:+ ".keyshare") in
  let metadataPath := path_join (keyDir cfg) (kid +:+ ".metadata.json") in
  match unlink keyPath h with
  | (Throw e, h) => (Throw e, h)
  | (Ok _, h) =>
      match unlink metadataPath h with
      | (Throw e, h) => (Throw e, h)
      | (Ok _, h) => (Ok tt, logger ("Key deleted: " +:+ kid) h)
      end
  end.

Definition deleteKey (cfg : HSMConfig) (kid : string) (h : Host)
  : result error unit * Host :=
  match provider cfg with
  | FILE_BASED => file_deleteKey cfg kid h
  | AWS_CLOUDHSM =>
      (Ok tt, logger ("Deleting key from AWS CloudHSM: " +:+ kid) h)
  | AZURE_KEY_VAULT => (Ok tt, h)
  | GOOGLE_CLOUD_HSM => (Throw (Error "Google Cloud HSM not yet implemented"), h)
  | YUBIHSM => (Throw (Error "YubiHSM not yet implemented"), h)
  end.

(** The error of a read of [path] when there is no such file. *)
Definition no_such_file (path : string) : error :=
  Error ("ENOENT: no such file or directory, open '" +:+ path +:+ "'").

End FileBased.

End KeyStore.

(* ===================================================================== *)
(** * Chain monitor and validator node: the signal path *)
(* ===================================================================== *)

Module Node.

(** A [SignalSent] log as the contract binding decodes it. *)
Record SignalSentLog := {
  log_signalId : string;
  log_srcChainId : Z;
  log_dstChainId : Z;
  log_srcAddress : string;
  log_dstAddress : string;
  log_nonce : Z;
  log_payload : string;
  log_timestamp : Z;
  log_transactionHash : string;
  log_blockNumber : Z;
}.

(** The object the monitor emits as ['signalEvent']. *)
Record SignalEvent := {
  signalId : string;
  srcChainId : string;
  dstChainId : string;
  srcAddress : string;
  dstAddress : string;
  nonce : string;
  payload : string;
  timestamp : string;
  txHash : string;
  blockNumber : Z;
  chainName : string;
}.

(** [ChainMonitorService.listenSignalEvents]: the listener of
    [SignalSent] emits one ['signalEvent'] for the log it is given. *)
Definition on_SignalSent (chain : string) (l : SignalSentLog) : SignalEvent :=
  {| signalId := log_signalId l;
     srcChainId := pretty (log_srcChainId l);
     dstChainId := pretty (log_dstChainId l);
     srcAddress := log_srcAddress l;
     dstAddress := log_dstAddress l;
     nonce := pretty (log_nonce l);
     payload := log_payload l;
     timestamp := pretty (log_timestamp l);
     txHash := log_transactionHash l;
     blockNumber := log_blockNumber l;
     chainName := chain |}.

Record SigningRequest := {
  requestId : string;
  req_txHash : string;
  sourceChain : string;
  destinationChain : string;
  req_message : bytes;
  participants : list Z;
}.

(** Messages the node writes to the orchestrator socket. *)
Inductive WsMessage :=
| SIGNAL_EVENT (validatorId sigId src dst tx reqId : string)
| SIGNATURE_COMPLETE (validatorId reqId tx src dst : string)
    (signature : bytes) (parts : list Z).

(** The completed signature as the TSS service hands it to its
    ['signatureComplete'] listeners. *)
Record SignatureComplete := {
  sc_requestId : string;
  sc_txHash : string;
  sc_sourceChain : string;
  sc_destinationChain : string;
  sc_signature : bytes;
  sc_participants : list Z;
}.

(** What the node does to the world, in order. *)
Inductive Effect :=
| LogInfo (line : string)
| LogError (line : string) (e : error)
| RecordSignatureRequest (sigId src dst tx : string)
| InitiateSigning (req : SigningRequest)
| WsSend (m : WsMessage)
| EmitSignatureComplete (tx src dst : string) (signature : bytes)
    (validator : string).

Inductive ReadyState := CONNECTING | OPEN | CLOSING | CLOSED.

Record State := {
  validatorId : string;
  wsConnection : option ReadyState;
  trace : list Effect;
}.

(** The collaborators of the node.  Each is asked with the trace up to and
    including the call and answers [None] when the call resolves and
    [Some e] when it rejects with [e]. *)
Record Collaborators := {
  recordSignatureRequest : list Effect -> option error;
  initiateSigning : list Effect -> option error;
  ws_send : list Effect -> option error;
}.

Definition act (A : Type) : Type := State -> result error A * State.

Definition ret {A} (a : A) : act A := fun s => (Ok a, s).

Definition bind {A B} (m : act A) (k : A -> act B) : act B :=
  fun s =>
    match m s with
    | (Ok a, s') => k a s'
    | (Throw e, s') => (Throw e, s')
    end.

(** [try { body } catch (error) { handler }] *)
Definition try_catch {A} (body : act A) (handler : error -> act A) : act A :=
  fun s =>
    match body s with
    | (Ok a, s') => (Ok a, s')
    | (Throw e, s') => handler e s'
    end.

Definition effect (e : Effect) : act unit :=
  fun s =>
    (Ok tt, {| validatorId := validatorId s;
               wsConnection := wsConnection s;
               trace := trace s ++ [e] |}).

(** A call to a collaborator: the call is recorded, then it settles. *)
Definition call (e : Effect) (settle : list Effect -> option error) : act unit :=
  fun s =>
    match effect e s with
    | (_, s') =>
        match settle (trace s') with
        | None => (Ok tt, s')
        | Some err => (Throw err, s')
        end
    end.

Definition get {A} (f : State -> A) : act A := fun s => (Ok (f s), s).

Notation "x <- m ;; k" := (bind m (fun x => k))
  (at level 100, m at next level, right associativity).
Notation "m ;;; k" := (bind m (fun _ => k))
  (at level 100, right associativity).

(** The [data] of a [SIGNING_REQUEST] as far as the handler reads it; a
    field the message lacks is [None]. *)
Record SigningRequestData := {
  d_requestId : string;
  d_txHash : string;
  d_sourceChain : string;
  d_destinationChain : string;
  d_message : option string;
  d_participants : option (list Z);
}.

(** What [Buffer.from(undefined, 'hex')] throws. *)
Definition invalid_arg_type : error :=
  Error "TypeError [ERR_INVALID_ARG_TYPE]: The first argument must be of type string or an instance of Buffer, ArrayBuffer, or Array or an Array-like Object. Received undefined".

Definition throw {A} (e : error) : act A := fun s => (Throw e, s).

Section Handlers.
Variable env : Collaborators.

(** The bytes handed to the TSS service as the message to sign. *)
Definition signing_message (event : SignalEvent) : bytes :=
  from_hex (slice_from 2 (signalId event)).

Definition signing_request (event : SignalEvent) : SigningRequest :=
  {| requestId := signalId event +:+ "-" +:+ slice_to 10 (txHash event);
     req_txHash := txHash event;
     sourceChain := srcChainId event;
     destinationChain := dstChainId event;
     req_message := signing_message event;
     participants := [1; 2; 3] |}.

(** Handle signal event and initiate TSS signing. *)
Definition handleSignalEvent (event : SignalEvent) : act unit :=
  try_catch
    (let signingRequest := signing_request event in
     effect (LogInfo ("Initiating TSS signing for signal "
                        +:+ slice_to 10 (signalId event) +:+ "...")) ;;;
     call (RecordSignatureRequest (signalId event) (srcChainId event)
             (dstChainId event) (txHash event))
          (recordSignatureRequest env) ;;;
     call (InitiateSigning signingRequest) (initiateSigning env) ;;;
     ws <- get wsConnection ;;
     vid <- get validatorId ;;
     match ws with
     | Some OPEN =>
         call (WsSend (SIGNAL_EVENT vid (signalId event) (srcChainId event)
                         (dstChainId event) (txHash event)
                         (requestId signingRequest)))
              (ws_send env)
     | _ => ret tt
     end ;;;
     effect (LogInfo ("TSS signing initiated for signal "
                        +:+ slice_to 10 (signalId event) +:+ "...")))
    (fun error => effect (LogError "Error handling signal event:" error)).

(** The listener [setupChainListeners] registers for ['signalEvent']. *)
Definition on_signalEvent (event : SignalEvent) : act unit :=
  effect (LogInfo ("Signal event detected on " +:+ chainName event)) ;;;
  effect (LogInfo ("Signal ID: " +:+ slice_to 10 (signalId event) +:+ "...")) ;;;
  effect (LogInfo ("Route: Chain " +:+ srcChainId event +:+ " -> Chain "
                     +:+ dstChainId event)) ;;;
  handleSignalEvent event.

(** The listener [setupTSSListeners] registers for
    ['signatureComplete']. *)
Definition on_signatureComplete (data : SignatureComplete) : act unit :=
  effect (LogInfo ("Signature complete for " +:+ sc_txHash data)) ;;;
  ws <- get wsConnection ;;
  vid <- get validatorId ;;
  match ws with
  | Some _ =>
      call (WsSend (SIGNATURE_COMPLETE vid (sc_requestId data) (sc_txHash data)
                      (sc_sourceChain data) (sc_destinationChain data)
                      (sc_signature data) (sc_participants data)))
           (ws_send env)
  | None => ret tt
  end ;;;
  effect (EmitSignatureComplete (sc_txHash data) (sc_sourceChain data)
            (sc_destinationChain data) (sc_signature data) vid).

(** The monitor delivers the logs of a chain one after the other; each
    goes through the listener above, and a run of the listener is taken to
    end before the next begins. *)
Fixpoint deliver (chain : string) (logs : list SignalSentLog) : act unit :=
  match logs with
  | [] => ret tt
  | l :: rest =>
      on_signalEvent (on_SignalSent chain l) ;;; deliver chain rest
  end.

Definition orchestrator_request (data : SigningRequestData) (message : bytes)
  : SigningRequest :=
  {| requestId := d_requestId data;
     req_txHash := d_txHash data;
     sourceChain := d_sourceChain data;
     destinationChain := d_destinationChain data;
     req_message := message;
     participants := default [1; 2; 3] (d_participants data) |}.

(** Handle signing request from orchestrator.  The result is that of the
    promise the handler leaves behind: its caller does not await it. *)
Definition handleSigningRequest (data : SigningRequestData) : act unit :=
  effect (LogInfo ("Received signing request: " +:+ d_requestId data)) ;;;
  message <- match d_message data with
             | Some m => ret (from_hex m)
             | None => throw invalid_arg_type
             end ;;
  call (InitiateSigning (orchestrator_request data message)) (initiateSigning env).

End Handlers.

Definition signing_attempts (t : list Effect) : list SigningRequest :=
  omap (fun e => match e with InitiateSigning r => Some r | _ => None end) t.

(** ** The trace of one event *)

(** The state [s] with the trace [t]. *)
Definition with_trace (s : State) (t : list Effect) : State :=
  {| validatorId := validatorId s; wsConnection := wsConnection s; trace := t |}.

Definition log_started (event : SignalEvent) : Effect :=
  LogInfo ("Initiating TSS signing for signal "
             +:+ slice_to 10 (signalId event) +:+ "...").

Definition log_initiated (event : SignalEvent) : Effect :=
  LogInfo ("TSS signing initiated for signal "
             +:+ slice_to 10 (signalId event) +:+ "...").

Definition log_failed (e : error) : Effect :=
  LogError "Error handling signal event:" e.

Definition revenue_call (event : SignalEvent) : Effect :=
  RecordSignatureRequest (signalId event) (srcChainId event)
    (dstChainId event) (txHash event).

Definition signal_message (s : State) (event : SignalEvent) : Effect :=
  WsSend (SIGNAL_EVENT (validatorId s) (signalId event) (srcChainId event)
            (dstChainId event) (txHash event)
            (requestId (signing_request event))).

(** The effects of one run of [handleSignalEvent], by the answers of the
    collaborators. *)
Definition handled (env : Collaborators) (event : SignalEvent) (s : State)
  : list Effect :=
  let t1 := (trace s ++ [log_started event]) ++ [revenue_call event] in
  match recordSignatureRequest env t1 with
  | Some e => t1 ++ [log_failed e]
  | None =>
      let t2 := t1 ++ [InitiateSigning (signing_request event)] in
      match initiateSigning env t2 with
      | Some e => t2 ++ [log_failed e]
      | None =>
          match wsConnection s with
          | Some OPEN =>
              let t3 := t2 ++ [signal_message s event] in
              match ws_send env t3 with
              | Some e => t3 ++ [log_failed e]
              | None => t3 ++ [log_initiated event]
              end
          | _ => t2 ++ [log_initiated event]
          end
      end
  end.

(** ** The canonical message of the specification *)

(** [uint32_be(n)]: four bytes, most significant first. *)
Definition uint32_be (n : Z) : bytes :=
  [byte_of (n / 16777216); byte_of (n / 65536); byte_of (n / 256); byte_of n].

(** signalId, source chain, destination chain, nonce and payload in the
    order of the canonical signed-message format. *)
Definition canonical_encoding (l : SignalSentLog) : bytes :=
  from_hex (slice_from 2 (log_signalId l))
    ++ uint32_be (log_srcChainId l)
    ++ uint32_be (log_dstChainId l)
    ++ uint32_be (log_nonce l)
    ++ from_hex (slice_from 2 (log_payload l)).

(** The canonical-message rule for a hash [H]: every log is signed as the
    hash of its canonical encoding. *)
Definition signs_canonical_message (H : bytes -> bytes) : Prop :=
  forall chain l,
    signing_message (on_SignalSent chain l) = H (canonical_encoding l).

End Node.

(* ===================================================================== *)
(** * Distributed key generation *)
(* ===================================================================== *)

Module DKG.

(** Order of the secp256k1 group, as rounds 3 and 5 spell it. *)
Definition secp256k1_n : Z :=
  0xFFFFFFFFFFFFFFFFFFFFFFFFFFFFFFFEBAAEDCE6AF48A03BBFD25E8CD0364141.

Record DKGConfig := {
  partyId : Z;
  threshold : Z;
  totalParties : Z;
  timeout : Z;
  hsmStore : option KeyStore.HSMConfig;
}.

Record DKGCommitment := {
  c_partyId : Z;
  commitments : list string;
  c_proof : string;
  c_timestamp : Z;
}.

Record DKGShare := {
  fromParty : Z;
  toParty : Z;
  encryptedShare : string;
  s_proof : string;
}.

(** The fields are read with [!] from members that may still be unset. *)
Record DKGResult := {
  keyShare : option bytes;
  publicKeyShare : option bytes;
  aggregatedPublicKey : option bytes;
  participants : list Z;
}.

(** A message the orchestrator relays, with the sender it names. *)
Inductive Message :=
| DKG_COMMITMENT (validatorId : option string) (data : DKGCommitment)
| DKG_SHARE (validatorId : option string) (data : DKGShare)
| DKG_PUBLIC_KEY_SHARE (validatorId : option string) (publicKeyShare : string)
| OTHER (type : string) (validatorId : option string).

(** A ['dkgMessage'] event, which the node forwards to the orchestrator. *)
Inductive Broadcast :=
| B_COMMITMENT (data : DKGCommitment)
| B_SHARE (data : DKGShare)
| B_PUBLIC_KEY_SHARE (party : Z) (publicKeyShare : string).

(** ** JavaScript [Map] with number keys

    Values by key, and the keys in the order of their first insertion,
    which is the order of iteration. *)
Record jsmap (V : Type) := {
  vals : gmap Z V;
  order : list Z;
}.
Arguments vals {V} _.
Arguments order {V} _.

Definition map_new {V} : jsmap V := {| vals := ∅; order := [] |}.

Definition map_set {V} (k : Z) (v : V) (m : jsmap V) : jsmap V :=
  {| vals := <[k := v]> (vals m);
     order := match vals m !! k with
              | Some _ => order m
              | None => order m ++ [k]
              end |}.

Definition map_size {V} (m : jsmap V) : Z := Z.of_nat (size (vals m)).

Definition map_entries {V} (m : jsmap V) : list (Z * V) :=
  omap (fun k => (fun v => (k, v)) <$> vals m !! k) (order m).

(** ** The sender of a message *)

Definition is_digit (c : ascii) : bool :=
  let n := Z.of_N (N_of_ascii c) in (48 <=? n) && (n <=? 57).

Fixpoint digits_prefix (cs : list ascii) : list ascii :=
  match cs with
  | c :: rest => if is_digit c then c :: digits_prefix rest else []
  | [] => []
  end.

(** [validatorId.match(/(\d+)$/)]: the digits the text ends with. *)
Definition trailing_digits (s : string) : list ascii :=
  rev (digits_prefix (rev (list_ascii_of_string s))).

(** [parseInt] of a run of digits. *)
Definition parseInt (ds : list ascii) : Z :=
  fold_left (fun acc c => 10 * acc + (Z.of_N (N_of_ascii c) - 48)) ds 0.

Definition sender (validatorId : option string) : option Z :=
  match validatorId with
  | None => None
  | Some v =>
      match trailing_digits v with
      | [] => None
      | ds => Some (parseInt ds)
      end
  end.

(** ** State of the service and of its surroundings *)

(** What happens while the ceremony is suspended at one [await]: the time
    that passes and the messages the socket delivers meanwhile. *)
Record Tick := {
  elapsed : Z;
  arrivals : list Message;
}.

Record State := {
  receivedCommitments : jsmap DKGCommitment;
  receivedShares : jsmap DKGShare;
  receivedPublicKeyShares : jsmap bytes;
  myCommitment : option DKGCommitment;
  myKeyShare : option bytes;
  myPublicKeyShare : option bytes;
  aggregatedPublicKey_ : option bytes;
  coefficients : option (list Z);
  (** [Date.now()], the suspensions still to come, the position in the
      entropy source and the ['dkgMessage'] events emitted so far *)
  now : Z;
  schedule : list Tick;
  rng_pos : nat;
  emitted : list Broadcast;
}.

Definition set_receivedCommitments f (s : State) : State :=
  {| receivedCommitments := f (receivedCommitments s);
     receivedShares := receivedShares s;
     receivedPublicKeyShares := receivedPublicKeyShares s;
     myCommitment := myCommitment s; myKeyShare := myKeyShare s;
     myPublicKeyShare := myPublicKeyShare s;
     aggregatedPublicKey_ := aggregatedPublicKey_ s;
     coefficients := coefficients s; now := now s; schedule := schedule s;
     rng_pos := rng_pos s; emitted := emitted s |}.

Definition set_receivedShares f (s : State) : State :=
  {| receivedCommitments := receivedCommitments s;
     receivedShares := f (receivedShares s);
     receivedPublicKeyShares := receivedPublicKeyShares s;
     myCommitment := myCommitment s; myKeyShare := myKeyShare s;
     myPublicKeyShare := myPublicKeyShare s;
     aggregatedPublicKey_ := aggregatedPublicKey_ s;
     coefficients := coefficients s; now := now s; schedule := schedule s;
     rng_pos := rng_pos s; emitted := emitted s |}.

Definition set_receivedPublicKeyShares f (s : State) : State :=
  {| receivedCommitments := receivedCommitments s;
     receivedShares := receivedShares s;
     receivedPublicKeyShares := f (receivedPublicKeyShares s);
     myCommitment := myCommitment s; myKeyShare := myKeyShare s;
     myPublicKeyShare := myPublicKeyShare s;
     aggregatedPublicKey_ := aggregatedPublicKey_ s;
     coefficients := coefficients s; now := now s; schedule := schedule s;
     rng_pos := rng_pos s; emitted := emitted s |}.

Definition set_myCommitment v (s : State) : State :=
  {| receivedCommitments := receivedCommitments s;
     receivedShares := receivedShares s;
     receivedPublicKeyShares := receivedPublicKeyShares s;
     myCommitment := v; myKeyShare := myKeyShare s;
     myPublicKeyShare := myPublicKeyShare s;
     aggregatedPublicKey_ := aggregatedPublicKey_ s;
     coefficients := coefficients s; now := now s; schedule := schedule s;
     rng_pos := rng_pos s; emitted := emitted s |}.

Definition set_myKeyShare v (s : State) : State :=
  {| receivedCommitments := receivedCommitments s;
     receivedShares := receivedShares s;
     receivedPublicKeyShares := receivedPublicKeyShares s;
     myCommitment := myCommitment s; myKeyShare := v;
     myPublicKeyShare := myPublicKeyShare s;
     aggregatedPublicKey_ := aggregatedPublicKey_ s;
     coefficients := coefficients s; now := now s; schedule := schedule s;
     rng_pos := rng_pos s; emitted := emitted s |}.

Definition set_myPublicKeyShare v (s : State) : State :=
  {| receivedCommitments := receivedCommitments s;
     receivedShares := receivedShares s;
     receivedPublicKeyShares := receivedPublicKeyShares s;
     myCommitment := myCommitment s; myKeyShare := myKeyShare s;
     myPublicKeyShare := v;
     aggregatedPublicKey_ := aggregatedPublicKey_ s;
     coefficients := coefficients s; now := now s; schedule := schedule s;
     rng_pos := rng_pos s; emitted := emitted s |}.

Definition set_aggregatedPublicKey v (s : State) : State :=
  {| receivedCommitments := receivedCommitments s;
     receivedShares := receivedShares s;
     receivedPublicKeyShares := receivedPublicKeyShares s;
     myCommitment := myCommitment s; myKeyShare := myKeyShare s;
     myPublicKeyShare := myPublicKeyShare s;
     aggregatedPublicKey_ := v;
     coefficients := coefficients s; now := now s; schedule := schedule s;
     rng_pos := rng_pos s; emitted := emitted s |}.

Definition set_coefficients v (s : State) : State :=
  {| receivedCommitments := receivedCommitments s;
     receivedShares := receivedShares s;
     receivedPublicKeyShares := receivedPublicKeyShares s;
     myCommitment := myCommitment s; myKeyShare := myKeyShare s;
     myPublicKeyShare := myPublicKeyShare s;
     aggregatedPublicKey_ := aggregatedPublicKey_ s;
     coefficients := v; now := now s; schedule := schedule s;
     rng_pos := rng_pos s; emitted := emitted s |}.

(** The clock moves on and the next suspension is taken off the list. *)
Definition advance (dt : Z) (rest : list Tick) (s : State) : State :=
  {| receivedCommitments := receivedCommitments s;
     receivedShares := receivedShares s;
     receivedPublicKeyShares := receivedPublicKeyShares s;
     myCommitment := myCommitment s; myKeyShare := myKeyShare s;
     myPublicKeyShare := myPublicKeyShare s;
     aggregatedPublicKey_ := aggregatedPublicKey_ s;
     coefficients := coefficients s; now := now s + dt; schedule := rest;
     rng_pos := rng_pos s; emitted := emitted s |}.

Definition set_rng_pos (p : nat) (s : State) : State :=
  {| receivedCommitments := receivedCommitments s;
     receivedShares := receivedShares s;
     receivedPublicKeyShares := receivedPublicKeyShares s;
     myCommitment := myCommitment s; myKeyShare := myKeyShare s;
     myPublicKeyShare := myPublicKeyShare s;
     aggregatedPublicKey_ := aggregatedPublicKey_ s;
     coefficients := coefficients s; now := now s; schedule := schedule s;
     rng_pos := p; emitted := emitted s |}.

Definition add_emitted (b : Broadcast) (s : State) : State :=
  {| receivedCommitments := receivedCommitments s;
     receivedShares := receivedShares s;
     receivedPublicKeyShares := receivedPublicKeyShares s;
     myCommitment := myCommitment s; myKeyShare := myKeyShare s;
     myPublicKeyShare := myPublicKeyShare s;
     aggregatedPublicKey_ := aggregatedPublicKey_ s;
     coefficients := coefficients s; now := now s; schedule := schedule s;
     rng_pos := rng_pos s; emitted := emitted s ++ [b] |}.

(** Handle incoming messages from orchestrator.  A message whose sender
    does not end in digits is dropped with a warning. *)
Definition handleOrchestratorMessage (m : Message) (s : State) : State :=
  match m with
  | DKG_COMMITMENT v data =>
      match sender v with
      | Some p => set_receivedCommitments (map_set p data) s
      | None => s
      end
  | DKG_SHARE v data =>
      match sender v with
      | Some p => set_receivedShares (map_set p data) s
      | None => s
      end
  | DKG_PUBLIC_KEY_SHARE v pk =>
      match sender v with
      | Some p => set_receivedPublicKeyShares (map_set p (from_hex pk)) s
      | None => s
      end
  | OTHER _ _ => s
  end.

(** ** Running code that suspends *)

(** A ceremony step ends, throws, or is still suspended when the list of
    suspensions has been used up. *)
Inductive outcome (A : Type) : Type :=
| Done (a : A)
| Failed (e : error)
| Waiting.
Arguments Done {A} a.
Arguments Failed {A} e.
Arguments Waiting {A}.

Definition act (A : Type) : Type := State -> outcome A * State.

Definition ret {A} (a : A) : act A := fun s => (Done a, s).

Definition throw {A} (e : error) : act A := fun s => (Failed e, s).

Definition bind {A B} (m : act A) (k : A -> act B) : act B :=
  fun s =>
    match m s with
    | (Done a, s') => k a s'
    | (Failed e, s') => (Failed e, s')
    | (Waiting, s') => (Waiting, s')
    end.

Definition get {A} (f : State -> A) : act A := fun s => (Done (f s), s).

Definition modify (f : State -> State) : act unit := fun s => (Done tt, f s).

Definition lift {A} (r : result error A) : act A :=
  match r with
  | Ok a => ret a
  | Throw e => throw e
  end.

Notation "x <- m ;; k" := (bind m (fun x => k))
  (at level 100, m at next level, right associativity).
Notation "m ;;; k" := (bind m (fun _ => k))
  (at level 100, right associativity).

(** One [await] on a timer or on a module load: the ceremony resumes after
    the messages that came in meanwhile have been handled. *)
Definition yield : act unit :=
  fun s =>
    match schedule s with
    | [] => (Waiting, s)
    | t :: rest =>
        (Done tt,
         fold_left (fun s m => handleOrchestratorMessage m s) (arrivals t)
           (advance (elapsed t) rest s))
    end.

(** Broadcast message to all peers via orchestrator: the event, then the
    50 ms pause. *)
Definition broadcast (b : Broadcast) : act unit :=
  modify (add_emitted b) ;;; yield.

Fixpoint map_result {A B} (f : A -> result error B) (l : list A)
  : result error (list B) :=
  match l with
  | [] => Ok []
  | a :: rest =>
      rbind (f a) (fun b => rbind (map_result f rest) (fun bs => Ok (b :: bs)))
  end.

Definition syntax_error (s : string) : error :=
  Error ("SyntaxError: Cannot convert 0x" +:+ s +:+ " to a BigInt").

(** [BigInt('0x' + s)] as a call that may throw. *)
Definition bigint (s : string) : result error Z :=
  match BigInt_0x s with
  | Some v => Ok v
  | None => Throw (syntax_error s)
  end.

(** The loop that rounds 3 and 5 both run over the coefficients: the sum
    and the power of [x] are reduced with [%] after every step. *)
Definition evaluate_step (x : Z) (acc : Z * Z) (coeff : Z) : Z * Z :=
  let '(shareValue, xPower) := acc in
  (Z.rem (shareValue + coeff * xPower) secp256k1_n,
   Z.rem (xPower * x) secp256k1_n).

Definition evaluate_polynomial (coeffs : list Z) (x : Z) : Z :=
  fst (fold_left (evaluate_step x) coeffs (0, 1)).

Definition timeout_error (what : string) (received required : Z) : error :=
  Error ("Timeout waiting for " +:+ what +:+ " (received " +:+ pretty received
           +:+ "/" +:+ pretty required +:+ ")").

(** ** Notions to state what the rounds do *)

(** The state in which the ceremony resumes after the suspension [t]. *)
Definition resumed (t : Tick) (rest : list Tick) (s : State) : State :=
  fold_left (fun s m => handleOrchestratorMessage m s) (arrivals t)
    (advance (elapsed t) rest s).

(** What a message cannot change: everything but the three maps. *)
Definition same_outside_maps (s s' : State) : Prop :=
  myCommitment s' = myCommitment s
  /\ myKeyShare s' = myKeyShare s
  /\ myPublicKeyShare s' = myPublicKeyShare s
  /\ aggregatedPublicKey_ s' = aggregatedPublicKey_ s
  /\ coefficients s' = coefficients s
  /\ now s' = now s
  /\ schedule s' = schedule s
  /\ rng_pos s' = rng_pos s
  /\ emitted s' = emitted s.

(** The range of a number of 32 bytes. *)
Definition in_256_bits (c : Z) : Prop := 0 <= c < 2 ^ 256.

(** The value of the 32 bytes the entropy source holds from [pos] on. *)
Definition coefficient_at (src : entropy) (pos : nat) : Z :=
  be_value (map src (seq pos 32)).

(** The values of [n] runs of 32 bytes from [pos] on. *)
Fixpoint coefficients_from (src : entropy) (pos n : nat) : list Z :=
  match n with
  | O => []
  | S n' => coefficient_at src pos :: coefficients_from src (pos + 32) n'
  end.



(** The public key shares a suspension delivers come from [A]. *)
Definition pk_sender_in (A : gset Z) (m : Message) : Prop :=
  match m with
  | DKG_PUBLIC_KEY_SHARE v _ =>
      match sender v with
      | Some p => p ∈ A
      | None => True
      end
  | _ => True
  end.



(** The commitment [c] with the proof [p] in place of its own. *)
Definition with_proof (c : DKGCommitment) (p : string) : DKGCommitment :=
  {| c_partyId := c_partyId c; commitments := commitments c;
     c_proof := p; c_timestamp := c_timestamp c |}.

#[export] Instance pk_sender_in_dec A m : Decision (pk_sender_in A m).
Proof. destruct m; cbn; try apply _. destruct (sender _); apply _. Defined.

Section Ceremony.
Context `{Primitives}.
Variable src : entropy.
Variable config : DKGConfig.

(** [new DKGService(config)] in a world whose clock shows [t0]. *)
Definition constructor (t0 : Z) (ticks : list Tick) (pos : nat)
  : result error State :=
  if totalParties config <? threshold config then
    Throw (Error ("Threshold (" +:+ pretty (threshold config)
                    +:+ ") cannot exceed total parties ("
                    +:+ pretty (totalParties config) +:+ ")"))
  else if threshold config <? 2 then
    Throw (Error "Threshold must be at least 2")
  else
    Ok {| receivedCommitments := map_new; receivedShares := map_new;
          receivedPublicKeyShares := map_new;
          myCommitment := None; myKeyShare := None;
          myPublicKeyShare := None; aggregatedPublicKey_ := None;
          coefficients := None;
          now := t0; schedule := ticks; rng_pos := pos; emitted := [] |}.

(** *** Round 1: generate Feldman commitments *)

Definition sample_coefficient : act Z :=
  pos <- get rng_pos ;;
  let '(bs, pos') := randomBytes src 32 pos in
  modify (set_rng_pos pos') ;;;
  lift (bigint (toString_hex bs)).

Fixpoint sample_loop (n : nat) : act unit :=
  match n with
  | O => ret tt
  | S n' =>
      coeff <- sample_coefficient ;;
      cs <- get coefficients ;;
      modify (set_coefficients (Some (default [] cs ++ [coeff]))) ;;;
      sample_loop n'
  end.

(** Generate zero-knowledge proof for commitments: the hash of the
    commitments. *)
Definition generateCommitmentProof (coeffs : list Z) (cms : list string)
  : string :=
  toString_hex (sha256 (concat (map list_byte_of_string cms))).

Definition round1_GenerateCommitments : act unit :=
  yield ;;;
  modify (set_coefficients (Some [])) ;;;
  sample_loop (Z.to_nat (threshold config)) ;;;
  cs <- get coefficients ;;
  cms <- lift (map_result G_multiply_hex (default [] cs)) ;;
  let proof := generateCommitmentProof (default [] cs) cms in
  t <- get now ;;
  let c := {| c_partyId := partyId config; commitments := cms;
              c_proof := proof; c_timestamp := t |} in
  modify (set_myCommitment (Some c)) ;;;
  broadcast (B_COMMITMENT c).

(** *** Waiting for the other parties *)

(** The loop of [waitForAllCommitments] and of
    [waitForAllPublicKeyShares]: while fewer than [required] entries are
    in, throw once more than the timeout has passed, else sleep 100 ms.
    Each turn takes one suspension off the list, so its length bounds the
    number of turns. *)
Fixpoint wait_loop (fuel : nat) (what : string) (count : State -> Z)
    (required startTime : Z) : act unit :=
  fun s =>
    if count s <? required then
      if timeout config <? now s - startTime then
        throw (timeout_error what (count s) required) s
      else
        match fuel with
        | O => (Waiting, s)
        | S fuel' =>
            (yield ;;; wait_loop fuel' what count required startTime) s
        end
    else (Done tt, s).

Definition wait_for (what : string) (count : State -> Z) : act unit :=
  fun s =>
    wait_loop (length (schedule s)) what count
      (totalParties config - 1) (now s) s.

Definition waitForAllCommitments : act unit :=
  wait_for "commitments" (fun s => map_size (receivedCommitments s)).

Definition waitForAllPublicKeyShares : act unit :=
  wait_for "public key shares"
    (fun s => map_size (receivedPublicKeyShares s)).

(** *** Round 2: verify all commitments *)

(** Verify commitment from another party. *)
Definition verifyCommitment (commitment : DKGCommitment) : bool :=
  Z.of_nat (length (commitments commitment)) =? threshold config.

Fixpoint verify_commitments (entries : list (Z * DKGCommitment))
  : result error unit :=
  match entries with
  | [] => Ok tt
  | (party, commitment) :: rest =>
      if verifyCommitment commitment then verify_commitments rest
      else Throw (Error ("Invalid commitment from Party " +:+ pretty party))
  end.

Definition round2_VerifyCommitments : act unit :=
  waitForAllCommitments ;;;
  entries <- get (fun s => map_entries (receivedCommitments s)) ;;
  lift (verify_commitments entries).

(** *** Round 3: generate shares for each party *)

Definition share_for (coeffs : list Z) (to : Z) : DKGShare :=
  {| fromParty := partyId config;
     toParty := to;
     encryptedShare := padStart 64 (toString16 (evaluate_polynomial coeffs to));
     s_proof := "simplified-proof" |}.

Fixpoint send_shares (coeffs : list Z) (parties : list Z) : act unit :=
  match parties with
  | [] => ret tt
  | to :: rest =>
      if to =? partyId config then send_shares coeffs rest
      else broadcast (B_SHARE (share_for coeffs to)) ;;;
           send_shares coeffs rest
  end.

Definition round3_GenerateShares : act unit :=
  cs <- get coefficients ;;
  match cs with
  | None => throw (Error "Coefficients not generated")
  | Some coeffs => send_shares coeffs (seqZ 1 (totalParties config))
  end.

(** *** Round 4: verify received shares *)

Definition round4_VerifyShares : act unit := ret tt.

(** *** Round 5: compute final key share *)

Fixpoint sum_shares (entries : list (Z * DKGShare)) (totalShare : Z)
  : result error Z :=
  match entries with
  | [] => Ok totalShare
  | (_, share) :: rest =>
      if toParty share =? partyId config then
        rbind (bigint (encryptedShare share)) (fun shareValue =>
          sum_shares rest (Z.rem (totalShare + shareValue) secp256k1_n))
      else sum_shares rest totalShare
  end.

Definition round5_ComputeKeyShare : act unit :=
  cs <- get coefficients ;;
  match cs with
  | None => throw (Error "Coefficients not generated")
  | Some coeffs =>
      let myOwnShare := evaluate_polynomial coeffs (partyId config) in
      entries <- get (fun s => map_entries (receivedShares s)) ;;
      totalShare <- lift (sum_shares entries myOwnShare) ;;
      modify (set_myKeyShare (Some (buffer_of_bigint totalShare)))
  end.

(** *** Round 6: compute and broadcast public key share *)

Definition unset_error (what : string) : error :=
  Error ("TypeError: " +:+ what +:+ " is undefined").

Definition round6_BroadcastPublicKeyShare : act unit :=
  yield ;;;
  ks <- get myKeyShare ;;
  pubKey <- lift (match ks with
                  | Some k => schnorr_getPublicKey k
                  | None => Throw (unset_error "myKeyShare")
                  end) ;;
  modify (set_myPublicKeyShare (Some pubKey)) ;;;
  broadcast (B_PUBLIC_KEY_SHARE (partyId config) (toString_hex pubKey)).

(** *** Round 7: aggregate all public key shares *)

Fixpoint add_points (entries : list (Z * bytes)) (aggregatedPoint : point)
  : result error point :=
  match entries with
  | [] => Ok aggregatedPoint
  | (_, pubKeyShare) :: rest =>
      rbind (point_fromHex pubKeyShare) (fun p =>
        add_points rest (point_add aggregatedPoint p))
  end.

Definition round7_AggregatePublicKeys : act unit :=
  waitForAllPublicKeyShares ;;;
  yield ;;;
  mine <- get myPublicKeyShare ;;
  start <- lift (match mine with
                 | Some pk => point_fromHex pk
                 | None => Throw (unset_error "myPublicKeyShare")
                 end) ;;
  entries <- get (fun s => map_entries (receivedPublicKeyShares s)) ;;
  aggregatedPoint <- lift (add_points entries start) ;;
  modify (set_aggregatedPublicKey (Some (point_toRawBytes aggregatedPoint))).

(** *** Notions to state what rounds 3 and 5 do *)




(** *** The ceremony *)

Definition rounds_1_to_6 : act unit :=
  round1_GenerateCommitments ;;;
  round2_VerifyCommitments ;;;
  round3_GenerateShares ;;;
  round4_VerifyShares ;;;
  round5_ComputeKeyShare ;;;
  round6_BroadcastPublicKeyShare.

Definition rounds : act unit :=
  rounds_1_to_6 ;;; round7_AggregatePublicKeys.

Variable cwd : string.
Variable JSON_stringify : KeyStore.HSMKeyMetadata -> string.

(** Store key share in HSM. *)
Definition storeKeyShareInHSM (s : State) (h : KeyStore.Host)
  : result error unit * State * KeyStore.Host :=
  match hsmStore config, myKeyShare s with
  | Some store, Some ks =>
      let metadata :=
        {| KeyStore.keyId := "validator-party-" +:+ pretty (partyId config);
           KeyStore.algorithm := "SCHNORR_SECP256K1";
           KeyStore.createdAt := now s;
           KeyStore.extractable := false;
           KeyStore.usages := ["sign"] |} in
      let '(r, h', pos) :=
        KeyStore.storeKeyShare src cwd JSON_stringify store ks metadata
          (rng_pos s) h in
      (rbind r (fun _ => Ok tt), set_rng_pos pos s, h')
  | _, _ => (Ok tt, s, h)
  end.

(** Run the complete DKG ceremony.  An error of a round is logged and
    thrown again; the key share is stored only after round 7. *)
Definition runDKGCeremony (s : State) (h : KeyStore.Host)
  : outcome DKGResult * State * KeyStore.Host :=
  match rounds s with
  | (Done _, s1) =>
      match hsmStore config with
      | Some _ =>
          match storeKeyShareInHSM s1 h with
          | (Ok _, s2, h') =>
              (Done {| keyShare := myKeyShare s2;
                       publicKeyShare := myPublicKeyShare s2;
                       aggregatedPublicKey := aggregatedPublicKey_ s2;
                       participants := seqZ 1 (totalParties config) |},
               s2, h')
          | (Throw e, s2, h') => (Failed e, s2, h')
          end
      | None =>
          (Done {| keyShare := myKeyShare s1;
                   publicKeyShare := myPublicKeyShare s1;
                   aggregatedPublicKey := aggregatedPublicKey_ s1;
                   participants := seqZ 1 (totalParties config) |},
           s1, h)
      end
  | (Failed e, s1) => (Failed e, s1, h)
  | (Waiting, s1) => (Waiting, s1, h)
  end.

End Ceremony.

(** ** Notions to state what the messages do *)

(** The validator id a message names. *)
Definition message_validatorId (m : Message) : option string :=
  match m with
  | DKG_COMMITMENT v _ => v
  | DKG_SHARE v _ => v
  | DKG_PUBLIC_KEY_SHARE v _ => v
  | OTHER _ v => v
  end.

(** The messages [ms] handled one after the other. *)
Definition handle_all (ms : list Message) (s : State) : State :=
  fold_left (fun s m => handleOrchestratorMessage m s) ms s.

(** The parties under which the commitments among [ms] are filed. *)
Definition commitment_senders (ms : list Message) : list Z :=
  omap (fun m => match m with
                 | DKG_COMMITMENT v _ => sender v
                 | _ => None
                 end) ms.

(** The state after the first [k] suspensions of the schedule. *)
Fixpoint after_suspensions (k : nat) (s : State) : State :=
  match k, schedule s with
  | S k', t :: rest => after_suspensions k' (resumed t rest s)
  | _, _ => s
  end.

(** [this.receivedCommitments.size] *)
Definition commitment_count (s : State) : Z := map_size (receivedCommitments s).

(** A ['dkgMessage'] event as [ValidatorNode.setupDKGEventForwarding]
    sends it on under the node's validator id, and as it reaches the
    handler of a peer when the orchestrator relays it unchanged. *)
Definition forward (validatorId : string) (b : Broadcast) : Message :=
  match b with
  | B_COMMITMENT data => DKG_COMMITMENT (Some validatorId) data
  | B_SHARE data => DKG_SHARE (Some validatorId) data
  | B_PUBLIC_KEY_SHARE _ publicKeyShare =>
      DKG_PUBLIC_KEY_SHARE (Some validatorId) publicKeyShare
  end.

(** What a wait for [count] to reach [N - 1] has done when it hands [r]
    back from the state [s]. *)
Definition wait_postcondition (config : DKGConfig) (what : string)
    (count : State -> Z) (s : State) (r : outcome unit * State) : Prop :=
  (exists j, snd r = after_suspensions j s)
  /\ match fst r with
     | Done _ => totalParties config - 1 <= count (snd r)
     | Failed e =>
         e = timeout_error what (count (snd r)) (totalParties config - 1)
         /\ count (snd r) < totalParties config - 1
         /\ timeout config < now (snd r) - now s
     | Waiting =>
         schedule (snd r) = []
         /\ count (snd r) < totalParties config - 1
         /\ now (snd r) - now s <= timeout config
     end.

End DKG.

(* ===================================================================== *)
(** * The node's side of the ceremony *)
(* ===================================================================== *)

Module NodeDKG.

(** What the node writes to the orchestrator socket for a ceremony. *)
Inductive Sent :=
| DKG_START (validatorId : string) (timestamp : Z)
| DKG_MESSAGE (m : DKG.Message).

(** The configuration [startDKGCeremony] gives the service: three of
    five, a minute for each wait, no peers and no key store. *)
Definition ceremony_config (partyId : Z) : DKG.DKGConfig :=
  {| DKG.partyId := partyId;
     DKG.threshold := 3;
     DKG.totalParties := 5;
     DKG.timeout := 60000;
     DKG.hsmStore := None |}.

Section Start.
Context `{Primitives}.
Variable src : entropy.
Variable cwd : string.
Variable JSON_stringify : KeyStore.HSMKeyMetadata -> string.

(** [ValidatorNode.startDKGCeremony] on a node with the validator id and
    the socket given, in a world whose clock shows [t0].  The events of
    the service are forwarded as they are emitted; the socket is taken to
    accept what is sent while the ceremony runs. *)
Definition startDKGCeremony (validatorId : string)
    (wsConnection : option Node.ReadyState) (t0 : Z) (ticks : list DKG.Tick)
    (pos : nat) (h : KeyStore.Host)
  : DKG.outcome DKG.DKGResult * list Sent * KeyStore.Host :=
  match wsConnection with
  | Some Node.OPEN =>
      match DKG.sender (Some validatorId) with
      | None =>
          (DKG.Failed
             (Error "Invalid validator ID format. Expected format: validator-{number}"),
           [], h)
      | Some partyId =>
          match DKG.constructor (ceremony_config partyId) t0 ticks pos with
          | Throw e => (DKG.Failed e, [], h)
          | Ok s =>
              match DKG.runDKGCeremony src (ceremony_config partyId) cwd
                      JSON_stringify s h with
              | (r, s', h') =>
                  (r,
                   DKG_START validatorId t0
                     :: map (fun b => DKG_MESSAGE (DKG.forward validatorId b))
                          (DKG.emitted s'),
                   h')
              end
          end
      end
  | _ =>
      (DKG.Failed
         (Error "Not connected to orchestrator. DKG requires orchestrator connection."),
       [], h)
  end.

End Start.
End NodeDKG.

(* ===================================================================== *)
(** * Health *)
(* ===================================================================== *)

Module Health.

(** [ValidatorNode.getStatus()], the fields the health check reads. *)
Record NodeStatus := {
  isRunning : bool;
  connected : bool;
  pendingSignings : list string;
  hasKeyShare : bool;
}.

Definition getStatus (running : bool) (wsConnection : option Node.ReadyState)
    (pending : list string) (keyShare : bool) : NodeStatus :=
  {| isRunning := running;
     connected := match wsConnection with
                  | Some Node.OPEN => true
                  | _ => false
                  end;
     pendingSignings := pending;
     hasKeyShare := keyShare |}.

(** An entry of [ChainMonitorService.checkHealth()]. *)
Record ChainHealth := {
  chain : string;
  healthy : bool;
  latency : Z;
}.

Inductive Status := Healthy | Degraded | Unhealthy.

Record Components := {
  validatorNode : bool;
  chainMonitor : bool;
  tssService : bool;
  revenueTracker : bool;
}.

Record HealthStatus := {
  status : Status;
  components : Components;
  chains : list ChainHealth;
  n_pendingSignings : nat;
}.

(** [HealthCheckService.getStatus()] from the status of the node and the
    health of the chains. *)
Definition health (nodeStatus : NodeStatus) (chains : list ChainHealth)
  : HealthStatus :=
  let components :=
    {| validatorNode := isRunning nodeStatus && connected nodeStatus;
       chainMonitor := existsb healthy chains;
       tssService := hasKeyShare nodeStatus;
       revenueTracker := true |} in
  let healthyCount :=
    length (List.filter (fun v : bool => v)
              [validatorNode components; chainMonitor components;
               tssService components; revenueTracker components]) in
  {| status := if (healthyCount =? 4)%nat then Healthy
               else if (2 <=? healthyCount)%nat then Degraded
               else Unhealthy;
     components := components;
     chains := chains;
     n_pendingSignings := length (pendingSignings nodeStatus) |}.

(** The status code of [GET /health]; before the services are up the
    status is ['initializing']. *)
Definition health_code (h : option HealthStatus) : Z :=
  match h with
  | Some {| status := Healthy |} => 200
  | _ => 503
  end.

End Health.

(* ===================================================================== *)
(** * Deployments *)
(* ===================================================================== *)

Module Deployments.

Record DeploymentInfo := {
  chainId : Z;
  chainName : string;
  signal : string;
  verifier : string;
  messenger : string;
  rpcUrl : string;
}.

(** A deployment file as far as it is read: [data.chainId],
    [data.network] and, where there are any, the three addresses of
    [data.contracts]. *)
Record Contracts := {
  c_signal : string;
  c_signalVerifier : string;
  c_secureMessenger : string;
}.

Record DeploymentFile := {
  f_chainId : Z;
  f_network : string;
  f_contracts : option Contracts;
}.

(** [process.env.NAME || fallback]: a variable that is unset or empty
    gives the fallback. *)
Definition env_or (env : gmap string string) (name fallback : string) : string :=
  match env !! name with
  | Some v => if String.eqb v "" then fallback else v
  | None => fallback
  end.

(** The table [getRpcUrl] builds from the environment. *)
Definition envMap (env : gmap string string) : list (Z * string) :=
  [ (1, env_or env "ETHEREUM_RPC" "");
    (56, env_or env "BSC_RPC" "https://bsc-dataseed1.binance.org");
    (137, env_or env "POLYGON_RPC" "https://polygon-rpc.com");
    (42161, env_or env "ARBITRUM_RPC" "https://arb1.arbitrum.io/rpc");
    (10, env_or env "OPTIMISM_RPC" "https://mainnet.optimism.io");
    (43114, env_or env "AVALANCHE_RPC" "https://api.avax.network/ext/bc/C/rpc");
    (250, env_or env "FANTOM_RPC" "https://rpc.ftm.tools");
    (8453, env_or env "BASE_RPC" "https://mainnet.base.org");
    (11155111, env_or env "SEPOLIA_RPC"
                 "https://sepolia.infura.io/v3/187e3c93df364840824e3274e58e402c");
    (97, env_or env "BSC_TESTNET_RPC"
           "https://bsc-testnet.infura.io/v3/187e3c93df364840824e3274e58e402c");
    (80001, env_or env "MUMBAI_RPC" "https://rpc-mumbai.maticvigil.com");
    (421614, env_or env "ARBITRUM_SEPOLIA_RPC"
               "https://sepolia-rollup.arbitrum.io/rpc");
    (11155420, env_or env "OPTIMISM_SEPOLIA_RPC" "https://sepolia.optimism.io") ].

(** [table[key]] *)
Fixpoint entry (key : Z) (table : list (Z * string)) : option string :=
  match table with
  | [] => None
  | (k, v) :: rest => if k =? key then Some v else entry key rest
  end.

(** Get RPC URL for a chain ID from environment or use public RPCs. *)
Definition getRpcUrl (env : gmap string string) (chainId : Z) : option string :=
  match entry chainId (envMap env) with
  | Some rpcUrl => if String.eqb rpcUrl "" then None else Some rpcUrl
  | None => None
  end.

(** [name.endsWith(suffix)] *)
Definition endsWith (suffix name : string) : bool :=
  (String.length suffix <=? String.length name)%nat
  && String.eqb (slice_from (String.length name - String.length suffix) name) suffix.

Section Load.
Variable env : gmap string string.
(** [JSON.parse(fs.readFileSync(path.join(deploymentsDir, file), 'utf8'))]
    by the name of the file; it throws when the file cannot be read or does
    not parse. *)
Variable read : string -> result error DeploymentFile.

(** One turn of the loop over the files: what is pushed.  An error of the
    turn is caught and logged, and a chain without RPC URL is skipped
    with a warning. *)
Definition load_file (file : string) : list DeploymentInfo :=
  match read file with
  | Throw _ => []
  | Ok data =>
      match getRpcUrl env (f_chainId data) with
      | None => []
      | Some rpcUrl =>
          match f_contracts data with
          | None => []
          | Some contracts =>
              [ {| chainId := f_chainId data;
                   chainName := f_network data;
                   signal := c_signal contracts;
                   verifier := c_signalVerifier contracts;
                   messenger := c_secureMessenger contracts;
                   rpcUrl := rpcUrl |} ]
          end
      end
  end.

(** Load all deployments from the deployments directory, given as the
    names [fs.readdirSync] lists, or [None] when there is no such
    directory. *)
Definition loadDeployments (dir : option (list string)) : list DeploymentInfo :=
  match dir with
  | None => []
  | Some names =>
      let files := List.filter (endsWith "-deployment.json") names in
      fold_left (fun deployments file => deployments ++ load_file file) files []
  end.

End Load.

(** The chains [getRpcUrl] has an entry for. *)
Definition listed_chains : list Z :=
  [1; 56; 137; 42161; 10; 43114; 250; 8453; 11155111; 97; 80001; 421614; 11155420].

End Deployments.

(* ===================================================================== *)
(** * The specification's formulas *)
(* ===================================================================== *)

Module Spec.




(** The range [1, q-1] of a scalar. *)
Definition in_scalar_range (a : Z) : Prop :=
  1 <= a <= DKG.secp256k1_n - 1.

(** A group of order [q] with generator [G], for the share check of
    Feldman's scheme. *)
Record group := {
  Pt : Type;
  G_mul : Z -> Pt;
  scalar_mul : Z -> Pt -> Pt;
  pt_add : Pt -> Pt -> Pt;
  pt_zero : Pt;
  pt_eqb : Pt -> Pt -> bool;
}.

(** [Σ_k (i^k) · C_k], the exponent of the first commitment given. *)
Fixpoint commitment_sum (g : group) (k : Z) (i : Z) (Cs : list (Pt g)) : Pt g :=
  match Cs with
  | [] => pt_zero g
  | C :: rest =>
      pt_add g (scalar_mul g (i ^ k) C) (commitment_sum g (k + 1) i rest)
  end.

(** The check of share verification: [s · G == Σ_k (i^k) · C_k]. *)
Definition share_verifies (g : group) (s i : Z) (Cs : list (Pt g)) : bool :=
  pt_eqb g (G_mul g s) (commitment_sum g 0 i Cs).

(** The group in which a point is written as its discrete logarithm to
    the base [G]: every group of prime order [q] has this form. *)
Definition exponents : group :=
  {| Pt := Z;
     G_mul := fun k => k mod DKG.secp256k1_n;
     scalar_mul := fun k P => (k * P) mod DKG.secp256k1_n;
     pt_add := fun P Q => (P + Q) mod DKG.secp256k1_n;
     pt_zero := 0;
     pt_eqb := Z.eqb |}.

End Spec.

(* ===================================================================== *)
(** * Concrete primitives and runs *)
(* ===================================================================== *)

Module Example.

(** Primitives to run the services with.  Points are written as their
    discrete logarithms, [G.multiply] refuses a scalar outside [1, q-1] as
    the curve library does, the cipher reverses its input under a constant
    tag, and the hash is the identity. *)
Definition in_range (k : Z) : bool := (1 <=? k) && (k <? DKG.secp256k1_n).

Definition tag0 : bytes := repeat Byte.x00 16.

Definition primitives : Primitives :=
  {| pbkdf2Sync := fun pw salt iterations keylen digest => take 32 salt;
     cipher := fun alg key iv pt => (rev pt, tag0);
     decipher := fun alg key iv tag ct =>
       if (length tag =? 16)%nat then Ok (rev ct)
       else Throw (Error "Unsupported state or unable to authenticate data");
     sha256 := fun bs => bs;
     schnorr_sign := fun msg key => Ok (key ++ msg);
     schnorr_getPublicKey := fun key =>
       if in_range (be_value key) then Ok key
       else Throw (Error "private key out of range");
     G_multiply_hex := fun k =>
       if in_range k then Ok (padStart 64 (toString16 k))
       else Throw (Error "invalid scalar: out of range");
     point := Z;
     point_fromHex := fun bs => Ok (be_value bs mod DKG.secp256k1_n);
     point_add := fun P Q => (P + Q) mod DKG.secp256k1_n;
     point_toRawBytes := fun P => buffer_of_bigint P |}.

(** An entropy source that counts up from 1. *)
Definition counting : entropy := fun i => byte_of (Z.of_nat i + 1).
Definition zeros : entropy := fun _ => Byte.x00.
Definition ones : entropy := fun _ => Byte.xff.

Definition JSON_stringify (m : KeyStore.HSMKeyMetadata) : string :=
  "{ keyId: " +:+ KeyStore.keyId m +:+ " }".

(** ** The key store *)

Definition empty_host : KeyStore.Host := {| KeyStore.files := ∅; KeyStore.log := [] |}.

Definition encrypted_config : KeyStore.HSMConfig :=
  {| KeyStore.provider := KeyStore.FILE_BASED;
     KeyStore.keyPath := Some "./keys";
     KeyStore.encryption :=
       Some {| KeyStore.enc_algorithm := "aes-256-gcm";
               KeyStore.password := "correct horse" |} |}.

Definition plain_config : KeyStore.HSMConfig :=
  {| KeyStore.provider := KeyStore.FILE_BASED;
     KeyStore.keyPath := Some "./keys";
     KeyStore.encryption := None |}.

Definition metadata1 : KeyStore.HSMKeyMetadata :=
  {| KeyStore.keyId := "validator-party-1";
     KeyStore.algorithm := "SCHNORR_SECP256K1";
     KeyStore.createdAt := 0;
     KeyStore.extractable := false;
     KeyStore.usages := ["sign"] |}.

Definition share1 : bytes := [Byte.x01; Byte.x02; Byte.x03; Byte.x04].

(** ** Signal events *)

Definition signal_0101 : string :=
  "0x0101010101010101010101010101010101010101010101010101010101010101".

(** The event of the happy-signing scenario: chain 1 to chain 56, nonce 7,
    with the payload given. *)
Definition signal_log (pl : string) : Node.SignalSentLog :=
  {| Node.log_signalId := signal_0101;
     Node.log_srcChainId := 1;
     Node.log_dstChainId := 56;
     Node.log_srcAddress := "0x00000000000000000000000000000000000000aa";
     Node.log_dstAddress := "0x00000000000000000000000000000000000000bb";
     Node.log_nonce := 7;
     Node.log_payload := pl;
     Node.log_timestamp := 1700000000;
     Node.log_transactionHash :=
       "0xabcdef0123456789abcdef0123456789abcdef0123456789abcdef0123456789";
     Node.log_blockNumber := 100 |}.

(** Collaborators whose calls all resolve. *)
Definition resolving : Node.Collaborators :=
  {| Node.recordSignatureRequest := fun _ => None;
     Node.initiateSigning := fun _ => None;
     Node.ws_send := fun _ => None |}.

(** Collaborators whose signing call rejects. *)
Definition tss_down : Node.Collaborators :=
  {| Node.recordSignatureRequest := fun _ => None;
     Node.initiateSigning := fun _ => Some (Error "No key share");
     Node.ws_send := fun _ => None |}.

Definition node0 : Node.State :=
  {| Node.validatorId := "validator-1";
     Node.wsConnection := Some Node.OPEN;
     Node.trace := [] |}.

(** ** A ceremony of five parties, seen from party 1 *)

Definition config5 : DKG.DKGConfig :=
  {| DKG.partyId := 1; DKG.threshold := 3; DKG.totalParties := 5;
     DKG.timeout := 60000; DKG.hsmStore := Some encrypted_config |}.

Definition validator (p : Z) : option string := Some ("validator-" +:+ pretty p).

(** The polynomial of peer [p], and what an honest peer sends. *)
Definition peer_coeffs (p : Z) : list Z := [10 * p + 1; 10 * p + 2; 10 * p + 3].

Definition peer_commitment (p : Z) : DKG.DKGCommitment :=
  let cms := map (fun a => padStart 64 (toString16 a)) (peer_coeffs p) in
  {| DKG.c_partyId := p;
     DKG.commitments := cms;
     DKG.c_proof := DKG.generateCommitmentProof (H:=primitives) (peer_coeffs p) cms;
     DKG.c_timestamp := 0 |}.

Definition peer_share (p to : Z) : DKG.DKGShare :=
  DKG.share_for {| DKG.partyId := p; DKG.threshold := 3; DKG.totalParties := 5;
                   DKG.timeout := 60000; DKG.hsmStore := None |}
    (peer_coeffs p) to.

Definition peer_pubkey (p : Z) : string := padStart 64 (toString16 (100 + p)).

Definition peers_without (d : Z) : list Z :=
  filter (fun p => p ≠ d) [2; 3; 4; 5].

Definition quiet (ms : Z) : DKG.Tick := {| DKG.elapsed := ms; DKG.arrivals := [] |}.

(** The suspensions of a ceremony in which every peer sends the commitment
    [commitment_of] gives for it and every peer but [d] sends the share
    [share_of] gives and its public key share: the module load and the
    pause of round 1, the four pauses of round 3, the load and the pause of
    round 6, and then [polls] sleeps of 100 ms in round 7. *)
Definition ticks_of (commitment_of : Z -> DKG.DKGCommitment)
    (share_of : Z -> DKG.DKGShare) (d : Z) (polls : nat) : list DKG.Tick :=
  [ quiet 1;
    {| DKG.elapsed := 50;
       DKG.arrivals :=
         map (fun p => DKG.DKG_COMMITMENT (validator p) (commitment_of p))
           [2; 3; 4; 5] |};
    {| DKG.elapsed := 50;
       DKG.arrivals :=
         map (fun p => DKG.DKG_SHARE (validator p) (share_of p))
           (peers_without d) |};
    quiet 50; quiet 50; quiet 50;
    quiet 1;
    {| DKG.elapsed := 50;
       DKG.arrivals :=
         map (fun p => DKG.DKG_PUBLIC_KEY_SHARE (validator p) (peer_pubkey p))
           (peers_without d) |} ]
  ++ repeat (quiet 100) polls.

(** Peer [d] sends nothing after its commitment. *)
Definition ticks_dropping (d : Z) (polls : nat) : list DKG.Tick :=
  ticks_of peer_commitment (fun p => peer_share p 1) d polls.

(** Peer 2 sends to party 1 a share that is one more than the value of its
    polynomial. *)
Definition corrupted_share : DKG.DKGShare :=
  {| DKG.fromParty := 2; DKG.toParty := 1;
     DKG.encryptedShare :=
       padStart 64 (toString16 (DKG.evaluate_polynomial (peer_coeffs 2) 1 + 1));
     DKG.s_proof := "simplified-proof" |}.

Definition ticks_corrupting : list DKG.Tick :=
  ticks_of peer_commitment
    (fun p => if p =? 2 then corrupted_share else peer_share p 1) 0 0.

(** Peer 2 sends its commitments with an empty proof. *)
Definition forged_commitment : DKG.DKGCommitment :=
  {| DKG.c_partyId := 2;
     DKG.commitments := DKG.commitments (peer_commitment 2);
     DKG.c_proof := "";
     DKG.c_timestamp := 0 |}.

Definition ticks_forging : list DKG.Tick :=
  ticks_of (fun p => if p =? 2 then forged_commitment else peer_commitment p)
    (fun p => peer_share p 1) 0 0.

(** The point a commitment of the examples stands for: its discrete
    logarithm. *)
Definition point_of_hex (s : string) : Z := default 0 (BigInt_0x s).

Definition start (ticks : list DKG.Tick) : DKG.State :=
  {| DKG.receivedCommitments := DKG.map_new;
     DKG.receivedShares := DKG.map_new;
     DKG.receivedPublicKeyShares := DKG.map_new;
     DKG.myCommitment := None; DKG.myKeyShare := None;
     DKG.myPublicKeyShare := None; DKG.aggregatedPublicKey_ := None;
     DKG.coefficients := None;
     DKG.now := 1000; DKG.schedule := ticks; DKG.rng_pos := 0;
     DKG.emitted := [] |}.

Definition after (m : DKG.act unit) (s : DKG.State) : DKG.State := snd (m s).

Definition round1 : DKG.act unit :=
  DKG.round1_GenerateCommitments (H:=primitives) counting config5.

Definition rounds_1_to_2 : DKG.act unit :=
  DKG.bind round1 (fun _ => DKG.round2_VerifyCommitments config5).

Definition rounds_1_to_3 : DKG.act unit :=
  DKG.bind rounds_1_to_2 (fun _ => DKG.round3_GenerateShares config5).


(** ** More of the key store *)

Definition aws_config : KeyStore.HSMConfig :=
  {| KeyStore.provider := KeyStore.AWS_CLOUDHSM;
     KeyStore.keyPath := None;
     KeyStore.encryption := None |}.

(** A host with a key share file that has no metadata beside it. *)
Definition orphan_host : KeyStore.Host :=
  {| KeyStore.files := {[ "./keys/validator-party-1.keyshare" := share1 ]};
     KeyStore.log := [] |}.

End Example.

(* ===================================================================== *)
(** * Facts about the conversions *)
(* ===================================================================== *)

Module HexFacts.

Lemma byte_val_range b : 0 <= byte_val b < 256.
Proof.
  unfold byte_val. pose proof (Byte.to_N_bounded b). lia.
Qed.

Lemma byte_of_val b : byte_of (byte_val b) = b.
Proof.
  unfold byte_of. pose proof (byte_val_range b) as Hb.
  rewrite Z.mod_small by lia. unfold byte_val.
  rewrite N2Z.id, Byte.of_to_N. reflexivity.
Qed.


Lemma hexval_hexchar d : 0 <= d < 16 -> hexval (hexchar d) = Some d.
Proof.
  intros Hd.
  assert (Hcases : d = 0 \/ d = 1 \/ d = 2 \/ d = 3 \/ d = 4 \/ d = 5 \/ d = 6
                   \/ d = 7 \/ d = 8 \/ d = 9 \/ d = 10 \/ d = 11 \/ d = 12
                   \/ d = 13 \/ d = 14 \/ d = 15) by lia.
  repeat (destruct Hcases as [-> | Hcases]; [reflexivity |]).
  subst d. reflexivity.
Qed.

(** A hexadecimal digit is no blank. *)
Lemma hexval_not_space c d : hexval c = Some d -> is_space c = false.
Proof.
  unfold hexval, is_space. cbv zeta.
  generalize (Z.of_N (N_of_ascii c)). intros n.
  repeat case_match; try discriminate; intros _; lia.
Qed.


Lemma list_ascii_of_string_app s1 s2 :
  list_ascii_of_string (s1 +:+ s2)
  = list_ascii_of_string s1 ++ list_ascii_of_string s2.
Proof.
  induction s1 as [|c s1 IH]; simpl; [reflexivity | now rewrite IH].
Qed.


(** ** Digit lists *)

Lemma digits_of_chars_map ds :
  Forall digit ds -> digits_of_chars (map hexchar ds) = Some ds.
Proof.
  induction 1 as [|d ds Hd _ IH]; simpl; [reflexivity |].
  now rewrite (hexval_hexchar d Hd), IH.
Qed.

Lemma trim_end_no_space cs :
  Forall (fun c => is_space c = false) cs -> trim_end_list cs = cs.
Proof.
  induction 1 as [|c cs Hc _ IH]; simpl; [reflexivity |].
  rewrite IH, Hc. now destruct cs.
Qed.

Lemma hexchars_no_space ds :
  Forall digit ds -> Forall (fun c => is_space c = false) (map hexchar ds).
Proof.
  induction 1 as [|d ds Hd _ IH]; simpl; constructor; [| exact IH].
  eapply hexval_not_space, hexval_hexchar, Hd.
Qed.

(** Reading back the digits that were printed. *)
Lemma BigInt_0x_digits ds :
  ds <> [] -> Forall digit ds ->
  BigInt_0x (string_of_list_ascii (map hexchar ds)) = Some (of_digits ds).
Proof.
  intros Hne Hds. unfold BigInt_0x.
  rewrite list_ascii_of_string_of_list_ascii.
  rewrite trim_end_no_space by now apply hexchars_no_space.
  pose proof (digits_of_chars_map ds Hds) as Hread.
  destruct ds as [|d ds]; [congruence |].
  simpl map in *. cbv beta iota. now rewrite Hread.
Qed.






(** ** Printing a number *)










(** ** Bytes and their two digits *)

Lemma nibbles b : digit (byte_val b / 16) /\ digit (byte_val b mod 16).
Proof.
  pose proof (byte_val_range b) as Hb. unfold digit. split.
  - split; [apply Z.div_pos; lia | apply Z.div_lt_upper_bound; lia].
  - apply Z.mod_pos_bound. lia.
Qed.

Lemma from_hex_toString_hex bs : from_hex (toString_hex bs) = bs.
Proof.
  induction bs as [|b bs IH]; [reflexivity |].
  destruct (nibbles b) as [Hh Hl]. simpl.
  rewrite (hexval_hexchar _ Hh), (hexval_hexchar _ Hl), IH.
  f_equal. rewrite <- (byte_of_val b) at 3. f_equal.
  pose proof (Z.div_mod (byte_val b) 16 ltac:(lia)). lia.
Qed.

Lemma toString_hex_digits bs :
  toString_hex bs = string_of_list_ascii (map hexchar (byte_digits bs)).
Proof. induction bs as [|b bs IH]; simpl; [reflexivity | now rewrite IH]. Qed.

Lemma byte_digits_spec bs :
  Forall digit (byte_digits bs) /\ of_digits (byte_digits bs) = be_value bs.
Proof.
  split.
  - induction bs as [|b bs IH]; simpl; [constructor |].
    destruct (nibbles b).
    apply List.Forall_cons; [assumption |].
    apply List.Forall_cons; assumption.
  - unfold of_digits, be_value. generalize 0.
    induction bs as [|b bs IH]; intros acc; simpl; [reflexivity |].
    rewrite IH. f_equal.
    pose proof (Z.div_mod (byte_val b) 16 ltac:(lia)). lia.
Qed.

(** [BigInt('0x' + buf.toString('hex'))] is the big-endian value of the
    buffer. *)
Lemma BigInt_0x_toString_hex bs :
  bs <> [] -> BigInt_0x (toString_hex bs) = Some (be_value bs).
Proof.
  intros Hne. rewrite toString_hex_digits.
  destruct (byte_digits_spec bs) as [Hall Hval].
  rewrite BigInt_0x_digits; [now rewrite Hval | | assumption].
  destruct bs; [congruence | discriminate].
Qed.

Lemma be_value_range bs : 0 <= be_value bs < 256 ^ Z.of_nat (length bs).
Proof.
  unfold be_value.
  assert (Hgen : forall acc, 0 <= acc ->
            0 <= fold_left (fun acc b => 256 * acc + byte_val b) bs acc
              < (acc + 1) * 256 ^ Z.of_nat (length bs)).
  { induction bs as [|b bs IH]; intros acc Hacc.
    - simpl. lia.
    - pose proof (byte_val_range b) as Hb.
      specialize (IH (256 * acc + byte_val b) ltac:(lia)).
      replace (Z.of_nat (length (b :: bs))) with (Z.of_nat (length bs) + 1)
        by (simpl; lia).
      rewrite Z.pow_add_r by lia. simpl fold_left.
      assert (0 < 256 ^ Z.of_nat (length bs)) by (apply Z.pow_pos_nonneg; lia).
      nia. }
  specialize (Hgen 0 ltac:(lia)). lia.
Qed.





End HexFacts.

(* ===================================================================== *)
(** * The key store *)
(* ===================================================================== *)

Module KeyStoreFacts.
Import KeyStore.

Lemma randomBytes_length src n pos : length (fst (randomBytes src n pos)) = n.
Proof. unfold randomBytes. simpl. now rewrite length_map, length_seq. Qed.

Lemma subarray_prefix (a b : bytes) : subarray 0 (length a) (a ++ b) = a.
Proof.
  unfold subarray. rewrite drop_0, Nat.sub_0_r. apply take_app_length.
Qed.

(** The slices [decryptKeyShare] cuts out of what [encryptKeyShare] laid
    down. *)
Lemma layout_slices (salt iv tag ct : bytes) :
  length salt = 32%nat -> length iv = 16%nat -> length tag = 16%nat ->
  subarray 0 32 (salt ++ iv ++ tag ++ ct) = salt
  /\ subarray 32 48 (salt ++ iv ++ tag ++ ct) = iv
  /\ subarray 48 64 (salt ++ iv ++ tag ++ ct) = tag
  /\ subarray_from 64 (salt ++ iv ++ tag ++ ct) = ct.
Proof.
  intros Hs Hi Ht. unfold subarray, subarray_from.
  repeat split.
  - rewrite drop_0. change (32 - 0)%nat with 32%nat. rewrite <- Hs.
    apply take_app_length.
  - change (48 - 32)%nat with 16%nat. rewrite <- Hs, drop_app_length.
    rewrite <- Hi. apply take_app_length.
  - change (64 - 48)%nat with 16%nat.
    replace 48%nat with (length salt + length iv)%nat by lia.
    rewrite <- drop_drop, !drop_app_length.
    rewrite <- Ht. apply take_app_length.
  - replace 64%nat with (length salt + (length iv + length tag))%nat by lia.
    rewrite <- !drop_drop, !drop_app_length. reflexivity.
Qed.

Section WithCipher.
Context `{AuthenticatedCipher}.
Variable src : entropy.

(** C8.  For every key share and every password, what [encryptKeyShare]
    returns is salt (32 bytes), iv (16), tag (16) and ciphertext in this
    order, the ciphertext and the tag being those of AES-256-GCM under
    the key PBKDF2 derives from the password and the salt with SHA-256
    in 100000 iterations; and [decryptKeyShare] with the same password
    gives the key share back. *)
Theorem encrypt_then_decrypt (keyShare : bytes) (pw : string) (pos : nat) :
  exists salt iv tag ct,
    fst (encryptKeyShare src keyShare pw pos) = salt ++ iv ++ tag ++ ct
    /\ length salt = 32%nat /\ length iv = 16%nat /\ length tag = 16%nat
    /\ (ct, tag)
       = cipher "aes-256-gcm" (pbkdf2Sync pw salt 100000 32 "sha256") iv keyShare
    /\ decryptKeyShare (fst (encryptKeyShare src keyShare pw pos)) pw
       = Ok keyShare.
Proof.
  unfold encryptKeyShare.
  destruct (randomBytes src 32 pos) as [salt pos1] eqn:Esalt.
  destruct (randomBytes src 16 pos1) as [iv pos2] eqn:Eiv.
  destruct (cipher "aes-256-gcm" (pbkdf2Sync pw salt 100000 32 "sha256") iv
              keyShare) as [ct tag] eqn:Ecipher.
  assert (Hsalt : length salt = 32%nat)
    by (rewrite <- (randomBytes_length src 32 pos), Esalt; reflexivity).
  assert (Hiv : length iv = 16%nat)
    by (rewrite <- (randomBytes_length src 16 pos1), Eiv; reflexivity).
  assert (Htag : length tag = 16%nat).
  { pose proof (tag_length "aes-256-gcm"
                  (pbkdf2Sync pw salt 100000 32 "sha256") iv keyShare) as Ht.
    now rewrite Ecipher in Ht. }
  exists salt, iv, tag, ct. simpl fst.
  repeat split; try assumption; [now rewrite Ecipher |].
  unfold decryptKeyShare. cbv zeta.
  destruct (layout_slices salt iv tag ct Hsalt Hiv Htag) as (-> & -> & -> & ->).
  pose proof (decipher_cipher "aes-256-gcm"
                (pbkdf2Sync pw salt 100000 32 "sha256") iv keyShare) as Hd.
  now rewrite Ecipher in Hd.
Qed.

End WithCipher.

(** The cipher of the examples is one the key store can rely on. *)
Lemma example_cipher : @AuthenticatedCipher Example.primitives.
Proof.
  split; intros alg key iv pt; simpl.
  - now rewrite rev_involutive.
  - reflexivity.
Qed.

(** [encrypt_then_decrypt] at the key share [01 02 03 04] and the password
    of the example. *)
Lemma encrypt_then_decrypt_example :
  exists salt iv tag ct,
    fst (encryptKeyShare (H:=Example.primitives) Example.counting
           Example.share1 "correct horse" 0)
    = salt ++ iv ++ tag ++ ct
    /\ length salt = 32%nat /\ length iv = 16%nat /\ length tag = 16%nat
    /\ (ct, tag)
       = cipher (Primitives:=Example.primitives) "aes-256-gcm"
           (pbkdf2Sync (Primitives:=Example.primitives) "correct horse" salt
              100000 32 "sha256") iv Example.share1
    /\ decryptKeyShare (H:=Example.primitives)
         (fst (encryptKeyShare (H:=Example.primitives) Example.counting
                 Example.share1 "correct horse" 0)) "correct horse"
       = Ok Example.share1.
Proof.
  exact (encrypt_then_decrypt (H0:=example_cipher) Example.counting
           Example.share1 "correct horse" 0).
Defined.

Section Files.
Context `{Primitives}.
Variable src : entropy.
Variable cwd : string.
Variable JSON_stringify : HSMKeyMetadata -> string.


(** A key store that could be constructed stores without throwing. *)
Lemma storeKeyShare_returns (cfg : HSMConfig) (p : Provider) (keyShare : bytes)
    (md : HSMKeyMetadata) (pos : nat) (h : Host) :
  constructor cfg = Ok p ->
  fst (fst (storeKeyShare src cwd JSON_stringify cfg keyShare md pos h))
  = Ok (keyId md).
Proof.
  unfold constructor, storeKeyShare, file_storeKeyShare.
  destruct (provider cfg); try discriminate; intros _; try reflexivity.
  destruct (configured_password cfg) as [pw|]; [| reflexivity].
  destruct (encryptKeyShare src keyShare pw pos). reflexivity.
Qed.

(** A call of [storeKeyShare] that throws has written nothing. *)
Lemma store_throw_keeps_files (cfg : HSMConfig) (keyShare : bytes)
    (md : HSMKeyMetadata) (pos : nat) (h : Host) :
  match fst (fst (storeKeyShare src cwd JSON_stringify cfg keyShare md pos h)) with
  | Ok _ => True
  | Throw _ =>
      files (snd (fst (storeKeyShare src cwd JSON_stringify cfg keyShare md pos h)))
      = files h
  end.
Proof.
  unfold storeKeyShare, file_storeKeyShare.
  destruct (provider cfg); try exact I; try reflexivity.
  destruct (configured_password cfg) as [pw|]; [| exact I].
  destruct (encryptKeyShare src keyShare pw pos). exact I.
Qed.

End Files.


End KeyStoreFacts.

(* ===================================================================== *)
(** * The signal path of the node *)
(* ===================================================================== *)

Module NodeFacts.
Import Node.

Lemma handleSignalEvent_run env event s :
  handleSignalEvent env event s = (Ok tt, with_trace s (handled env event s)).
Proof.
  unfold handleSignalEvent, handled, try_catch, bind, call, effect, get, ret,
    with_trace, log_started, log_initiated, log_failed, revenue_call,
    signal_message.
  destruct s as [vid ws t]. cbn [trace validatorId wsConnection].
  destruct (recordSignatureRequest env _) as [e1|]; [reflexivity |].
  destruct (initiateSigning env _) as [e2|]; [reflexivity |].
  destruct ws as [[ | | | ]|]; try reflexivity.
  cbn [trace validatorId wsConnection].
  destruct (ws_send env _) as [e3|]; reflexivity.
Qed.

(** C10.  [handleSignalEvent] returns normally for every event and every
    behaviour of its collaborators, and so does the listener the monitor
    calls.  When the revenue recording, the signing call or the send to
    the orchestrator rejects, the only effect after the rejected call is
    the error line of the log: nothing is sent or emitted for the
    request. *)
Theorem handleSignalEvent_total env event s :
  let t1 := (trace s ++ [log_started event]) ++ [revenue_call event] in
  let t2 := t1 ++ [InitiateSigning (signing_request event)] in
  let t3 := t2 ++ [signal_message s event] in
  let after := trace (snd (handleSignalEvent env event s)) in
  fst (handleSignalEvent env event s) = Ok tt
  /\ fst (on_signalEvent env event s) = Ok tt
  /\ (forall e, recordSignatureRequest env t1 = Some e ->
                after = t1 ++ [log_failed e])
  /\ (forall e, recordSignatureRequest env t1 = None ->
                initiateSigning env t2 = Some e ->
                after = t2 ++ [log_failed e])
  /\ (forall e, recordSignatureRequest env t1 = None ->
                initiateSigning env t2 = None ->
                wsConnection s = Some OPEN ->
                ws_send env t3 = Some e ->
                after = t3 ++ [log_failed e]).
Proof.
  cbv zeta. unfold on_signalEvent, bind, effect.
  rewrite !handleSignalEvent_run. cbn [fst snd trace with_trace].
  unfold handled. cbv zeta.
  repeat split.
  - intros e ->. reflexivity.
  - intros e -> ->. reflexivity.
  - intros e -> -> -> ->. reflexivity.
Qed.

(** The signing call rejects: the handler returns normally and the trace ends
    with the error line; nothing was sent to the orchestrator. *)
Example handleSignalEvent_when_signing_rejects :
  let event := on_SignalSent "sepolia" (Example.signal_log "0xdead") in
  handleSignalEvent Example.tss_down event Example.node0
  = (Ok tt,
     with_trace Example.node0
       [log_started event; revenue_call event;
        InitiateSigning (signing_request event);
        log_failed (Error "No key share")]).
Proof. reflexivity. Qed.

(** ** Signing attempts *)

Lemma signing_attempts_app t1 t2 :
  signing_attempts (t1 ++ t2) = signing_attempts t1 ++ signing_attempts t2.
Proof. unfold signing_attempts. apply omap_app. Qed.

Lemma handled_attempts env event s :
  recordSignatureRequest env
    ((trace s ++ [log_started event]) ++ [revenue_call event]) = None ->
  signing_attempts (handled env event s)
  = signing_attempts (trace s) ++ [signing_request event].
Proof.
  intros Hrev. unfold handled. cbv zeta. rewrite Hrev.
  destruct (initiateSigning env _);
    [| destruct (wsConnection s) as [[ | | | ]|];
       [| destruct (ws_send env _) | | |]];
    rewrite !signing_attempts_app; cbn; rewrite ?app_nil_r; reflexivity.
Qed.

Lemma on_signalEvent_attempts env event s :
  (forall t, recordSignatureRequest env t = None) ->
  fst (on_signalEvent env event s) = Ok tt
  /\ signing_attempts (trace (snd (on_signalEvent env event s)))
     = signing_attempts (trace s) ++ [signing_request event].
Proof.
  intros Hrev. unfold on_signalEvent, bind, effect.
  rewrite handleSignalEvent_run. cbn [fst snd trace with_trace].
  split; [reflexivity |].
  rewrite handled_attempts by apply Hrev.
  cbn [trace]. rewrite !signing_attempts_app. cbn. now rewrite !app_nil_r.
Qed.

(** The node's part in [SIGNATURE_COMPLETE]: one message for one
    ['signatureComplete'] event of the TSS service. *)
Lemma on_signatureComplete_sends env data s st :
  wsConnection s = Some st ->
  exists rest,
    trace (snd (on_signatureComplete env data s))
    = trace s
        ++ [LogInfo ("Signature complete for " +:+ sc_txHash data);
            WsSend (SIGNATURE_COMPLETE (validatorId s) (sc_requestId data)
                      (sc_txHash data) (sc_sourceChain data)
                      (sc_destinationChain data) (sc_signature data)
                      (sc_participants data))]
        ++ rest
    /\ Forall (fun e => match e with WsSend _ => False | _ => True end) rest.
Proof.
  intros Hws. unfold on_signatureComplete, bind, get, call, effect, ret.
  destruct s as [vid ws t]. cbn in Hws. subst ws.
  cbn [trace validatorId wsConnection fst snd].
  match goal with |- context [ws_send env ?t] => destruct (ws_send env t) as [e|] end;
    cbn [trace snd].
  - exists []. rewrite <- !app_assoc. split; [reflexivity | constructor].
  - eexists [_]. rewrite <- !app_assoc. split; [reflexivity |].
    repeat constructor.
Qed.

(** C2, as the code has it.  The signal path keeps no record of the
    signals it has seen: when the revenue recording resolves, every log the
    monitor delivers makes one signing attempt, in the order of delivery,
    whose request id is the signalId, a dash and the first ten characters
    of the transaction hash; and for every ['signatureComplete'] event of
    the TSS service the node sends one [SIGNATURE_COMPLETE]. *)
Theorem one_signing_attempt_per_delivery env chain logs s :
  (forall t, recordSignatureRequest env t = None) ->
  fst (deliver env chain logs s) = Ok tt
  /\ signing_attempts (trace (snd (deliver env chain logs s)))
     = signing_attempts (trace s)
         ++ map (fun l => signing_request (on_SignalSent chain l)) logs
  /\ (forall l, requestId (signing_request (on_SignalSent chain l))
                = log_signalId l +:+ "-" +:+ slice_to 10 (log_transactionHash l))
  /\ (forall data s' st, wsConnection s' = Some st ->
        exists rest,
          trace (snd (on_signatureComplete env data s'))
          = trace s'
              ++ [LogInfo ("Signature complete for " +:+ sc_txHash data);
                  WsSend (SIGNATURE_COMPLETE (validatorId s') (sc_requestId data)
                            (sc_txHash data) (sc_sourceChain data)
                            (sc_destinationChain data) (sc_signature data)
                            (sc_participants data))]
              ++ rest
          /\ Forall (fun e => match e with WsSend _ => False | _ => True end) rest).
Proof.
  intros Hrev. split; [| split; [| split]].
  - revert s. induction logs as [|l logs IH]; intros s; [reflexivity |].
    cbn [deliver]. unfold bind.
    destruct (on_signalEvent_attempts env (on_SignalSent chain l) s Hrev) as [Hok _].
    destruct (on_signalEvent env (on_SignalSent chain l) s) as [r s1].
    cbn in Hok. subst r. apply IH.
  - revert s. induction logs as [|l logs IH]; intros s.
    + cbn. now rewrite app_nil_r.
    + cbn [deliver map]. unfold bind.
      destruct (on_signalEvent_attempts env (on_SignalSent chain l) s Hrev)
        as [Hok Hatt].
      destruct (on_signalEvent env (on_SignalSent chain l) s) as [r s1].
      cbn in Hok, Hatt. subst r. rewrite IH, Hatt, <- app_assoc. reflexivity.
  - reflexivity.
  - intros data s' st. apply on_signatureComplete_sends.
Qed.

(** [one_signing_attempt_per_delivery] at collaborators that always
    resolve and the same log delivered twice. *)
Lemma one_signing_attempt_per_delivery_example :
  (forall t, recordSignatureRequest Example.resolving t = None)
  /\ signing_attempts
       (trace (snd (deliver Example.resolving "sepolia"
                      [Example.signal_log "0xdead"; Example.signal_log "0xdead"]
                      Example.node0)))
     = signing_attempts (trace Example.node0)
         ++ map (fun l => signing_request (on_SignalSent "sepolia" l))
              [Example.signal_log "0xdead"; Example.signal_log "0xdead"].
Proof.
  split; [reflexivity |].
  exact (proj1 (proj2 (one_signing_attempt_per_delivery Example.resolving
                         "sepolia"
                         [Example.signal_log "0xdead"; Example.signal_log "0xdead"]
                         Example.node0 (fun _ => eq_refl)))).
Defined.

(** C2, as the claim has it, fails: the same log delivered twice is
    signed twice, under the same request id. *)
Lemma same_signal_signed_twice :
  let event := on_SignalSent "sepolia" (Example.signal_log "0xdead") in
  signing_attempts
    (trace (snd (deliver Example.resolving "sepolia"
                   [Example.signal_log "0xdead"; Example.signal_log "0xdead"]
                   Example.node0)))
  = [signing_request event; signing_request event].
Proof. reflexivity. Qed.

(** ** The message that is signed *)

Lemma from_hex_0x bs : from_hex (slice_from 2 ("0x" +:+ toString_hex bs)) = bs.
Proof. cbn [slice_from String.append]. apply HexFacts.from_hex_toString_hex. Qed.

(** C1, as the code has it.  The message of the signing request an event
    leads to is the signalId of the log, its digits read as bytes after the
    leading [0x]; logs with the same signalId give the same message whatever
    their chains, nonce and payload are; and the request is handed to the
    TSS service when the revenue recording resolves. *)
Theorem signs_the_signalId env chain l s :
  let event := on_SignalSent chain l in
  let t1 := (trace s ++ [log_started event]) ++ [revenue_call event] in
  signing_attempts (trace (snd (handleSignalEvent env event s)))
  = signing_attempts (trace s)
      ++ match recordSignatureRequest env t1 with
         | None => [signing_request event]
         | Some _ => []
         end
  /\ req_message (signing_request event)
     = from_hex (slice_from 2 (log_signalId l))
  /\ (forall l', log_signalId l' = log_signalId l ->
        req_message (signing_request (on_SignalSent chain l'))
        = req_message (signing_request event))
  /\ (forall bs, log_signalId l = "0x" +:+ toString_hex bs ->
        req_message (signing_request event) = bs).
Proof.
  cbv zeta. rewrite handleSignalEvent_run. cbn [snd trace with_trace].
  split; [| split; [reflexivity | split]].
  - destruct (recordSignatureRequest env _) as [e|] eqn:Hrev.
    + unfold handled. cbv zeta. rewrite Hrev.
      rewrite !signing_attempts_app. cbn. now rewrite !app_nil_r.
    + now apply handled_attempts.
  - intros l' Hl'. cbn. unfold signing_message. cbn. now rewrite Hl'.
  - intros bs Hbs. cbn. unfold signing_message. cbn. rewrite Hbs.
    apply from_hex_0x.
Qed.

(** C1, as the claim has it, fails.  Two logs that differ in their payload
    have different canonical encodings and are signed with the same
    message, the 32 bytes of their signalId: no function that tells the
    two encodings apart is the hash of the canonical-message rule. *)
Lemma canonical_message_not_signed :
  signing_message (on_SignalSent "sepolia" (Example.signal_log "0xdead"))
  = repeat Byte.x01 32
  /\ signing_message (on_SignalSent "sepolia" (Example.signal_log "0xbeef"))
     = repeat Byte.x01 32
  /\ canonical_encoding (Example.signal_log "0xdead")
     <> canonical_encoding (Example.signal_log "0xbeef")
  /\ ~ (exists H : bytes -> bytes,
          H (canonical_encoding (Example.signal_log "0xdead"))
          <> H (canonical_encoding (Example.signal_log "0xbeef"))
          /\ signs_canonical_message H).
Proof.
  split; [reflexivity | split; [reflexivity | split]].
  - intros Heq. vm_compute in Heq. discriminate Heq.
  - intros (H & Hdiff & Hclaim). apply Hdiff.
    rewrite <- (Hclaim "sepolia" (Example.signal_log "0xdead")).
    rewrite <- (Hclaim "sepolia" (Example.signal_log "0xbeef")).
    reflexivity.
Qed.

End NodeFacts.

(* ===================================================================== *)
(** * The ceremony: arithmetic of the shares *)
(* ===================================================================== *)

Module ShareFacts.
Import DKG.



#[local] Opaque secp256k1_n.





(** ** What [BigInt] reads is not negative *)



Section Shares.
Context `{Primitives}.
Variable config : DKGConfig.


End Shares.

End ShareFacts.

(* ===================================================================== *)
(** * The ceremony: suspensions and rounds *)
(* ===================================================================== *)

Module RunFacts.
Import DKG.

Lemma same_outside_maps_refl s : same_outside_maps s s.
Proof. repeat split. Qed.

Lemma same_outside_maps_trans s1 s2 s3 :
  same_outside_maps s1 s2 -> same_outside_maps s2 s3 -> same_outside_maps s1 s3.
Proof.
  unfold same_outside_maps.
  intros (?&?&?&?&?&?&?&?&?) (?&?&?&?&?&?&?&?&?).
  repeat split; congruence.
Qed.

Lemma handle_same_outside_maps m s :
  same_outside_maps s (handleOrchestratorMessage m s).
Proof.
  destruct m as [v d|v d|v d|ty v]; simpl;
    try (destruct (sender v)); repeat split.
Qed.

Lemma handle_all_same_outside_maps ms : forall s,
  same_outside_maps s
    (fold_left (fun s m => handleOrchestratorMessage m s) ms s).
Proof.
  induction ms as [|m ms IH]; intros s; simpl.
  - apply same_outside_maps_refl.
  - eapply same_outside_maps_trans; [apply handle_same_outside_maps | apply IH].
Qed.

Lemma resumed_fields t rest s :
  let s' := resumed t rest s in
  myCommitment s' = myCommitment s
  /\ myKeyShare s' = myKeyShare s
  /\ myPublicKeyShare s' = myPublicKeyShare s
  /\ aggregatedPublicKey_ s' = aggregatedPublicKey_ s
  /\ coefficients s' = coefficients s
  /\ now s' = now s + elapsed t
  /\ schedule s' = rest
  /\ rng_pos s' = rng_pos s
  /\ emitted s' = emitted s.
Proof.
  cbv zeta. unfold resumed.
  destruct (handle_all_same_outside_maps (arrivals t) (advance (elapsed t) rest s))
    as (?&?&?&?&?&?&?&?&?).
  repeat split; simpl in *; congruence.
Qed.

Lemma yield_cons s t rest :
  schedule s = t :: rest -> yield s = (Done tt, resumed t rest s).
Proof. intros Hs. unfold yield, resumed. now rewrite Hs. Qed.

Lemma yield_nil s : schedule s = [] -> yield s = (Waiting, s).
Proof. intros Hs. unfold yield. now rewrite Hs. Qed.

(** ** Round 1: the coefficients *)

Lemma coefficient_at_range src pos : in_256_bits (coefficient_at src pos).
Proof.
  unfold in_256_bits, coefficient_at.
  pose proof (HexFacts.be_value_range (map src (seq pos 32))) as Hr.
  rewrite length_map, length_seq in Hr.
  change (256 ^ Z.of_nat 32) with (2 ^ 256) in Hr. exact Hr.
Qed.

Lemma coefficients_from_spec src n : forall pos,
  length (coefficients_from src pos n) = n
  /\ Forall in_256_bits (coefficients_from src pos n).
Proof.
  induction n as [|n IH]; intros pos; simpl.
  - split; [reflexivity | constructor].
  - destruct (IH (pos + 32)%nat) as [Hlen Hall].
    split; [now rewrite Hlen |].
    constructor; [apply coefficient_at_range | exact Hall].
Qed.

Section Rounds.
Context `{Primitives}.
Variable src : entropy.
Variable config : DKGConfig.

Lemma sample_coefficient_run s :
  sample_coefficient src s
  = (Done (coefficient_at src (rng_pos s)),
     set_rng_pos (rng_pos s + 32) s).
Proof.
  unfold sample_coefficient, bind, get, modify, lift, bigint, randomBytes.
  cbn [fst snd].
  rewrite HexFacts.BigInt_0x_toString_hex;
    [unfold ret, coefficient_at; reflexivity |].
  intros Hnil. apply (f_equal (@length _)) in Hnil.
  rewrite length_map, length_seq in Hnil. discriminate Hnil.
Qed.

Lemma set_set s c c' p p' :
  set_coefficients c (set_rng_pos p (set_coefficients c' (set_rng_pos p' s)))
  = set_coefficients c (set_rng_pos p s).
Proof. destruct s; reflexivity. Qed.

Lemma rng_pos_set c p s : rng_pos (set_coefficients c (set_rng_pos p s)) = p.
Proof. reflexivity. Qed.

Lemma sample_loop_run n : forall s pre,
  coefficients s = Some pre ->
  sample_loop src n s
  = (Done tt,
     set_coefficients (Some (pre ++ coefficients_from src (rng_pos s) n))
       (set_rng_pos (rng_pos s + 32 * n) s)).
Proof.
  induction n as [|n IH]; intros s pre Hpre.
  - cbn [sample_loop coefficients_from]. unfold ret.
    rewrite app_nil_r, Nat.mul_0_r, Nat.add_0_r, <- Hpre.
    destruct s; reflexivity.
  - cbn [sample_loop coefficients_from].
    unfold bind at 1. rewrite sample_coefficient_run.
    unfold bind at 1, get at 1.
    change (coefficients (set_rng_pos (rng_pos s + 32) s)) with (coefficients s).
    rewrite Hpre. cbn [default].
    unfold bind at 1, modify at 1.
    rewrite (IH _ (pre ++ [coefficient_at src (rng_pos s)])) by reflexivity.
    rewrite rng_pos_set, set_set, <- app_assoc.
    replace (rng_pos s + 32 + 32 * n)%nat with (rng_pos s + 32 * S n)%nat by lia.
    reflexivity.
Qed.

(** *** Composition *)

Lemma bind_Done {A B} (m : act A) (k : A -> act B) s a s' :
  m s = (Done a, s') -> bind m k s = k a s'.
Proof. intros Hm. unfold bind. now rewrite Hm. Qed.

Lemma bind_Failed {A B} (m : act A) (k : A -> act B) s e s' :
  m s = (Failed e, s') -> bind m k s = (Failed e, s').
Proof. intros Hm. unfold bind. now rewrite Hm. Qed.

Lemma bind_Waiting {A B} (m : act A) (k : A -> act B) s s' :
  m s = (Waiting, s') -> bind m k s = (Waiting, s').
Proof. intros Hm. unfold bind. now rewrite Hm. Qed.

Lemma yield_coefficients s : coefficients (snd (yield s)) = coefficients s.
Proof.
  destruct (schedule s) as [|t rest] eqn:Hs.
  - now rewrite (yield_nil s Hs).
  - rewrite (yield_cons s t rest Hs). apply resumed_fields.
Qed.

Lemma broadcast_coefficients b s :
  coefficients (snd (broadcast b s)) = coefficients s.
Proof.
  unfold broadcast. erewrite bind_Done by reflexivity.
  now rewrite yield_coefficients.
Qed.

(** C7, as the code has it.  The coefficients round 1 keeps are the
    values of [threshold] runs of 32 bytes of the entropy source, read as
    big-endian numbers: each lies in [0, 2^256 - 1], and none is reduced
    or rejected before it is kept. *)
Theorem sampled_coefficients (s : State) (t : Tick) (rest : list Tick) :
  schedule s = t :: rest ->
  exists cs,
    coefficients (snd (round1_GenerateCommitments src config s)) = Some cs
    /\ cs = coefficients_from src (rng_pos s) (Z.to_nat (threshold config))
    /\ length cs = Z.to_nat (threshold config)
    /\ Forall in_256_bits cs.
Proof.
  intros Hs.
  destruct (coefficients_from_spec src (Z.to_nat (threshold config)) (rng_pos s))
    as [Hlen Hall].
  eexists. split; [| split; [reflexivity | split; [exact Hlen | exact Hall]]].
  unfold round1_GenerateCommitments.
  erewrite bind_Done by (apply yield_cons; exact Hs).
  erewrite bind_Done by reflexivity.
  erewrite bind_Done by (apply sample_loop_run with (pre := []); reflexivity).
  cbn [app].
  replace (rng_pos (set_coefficients (Some []) (resumed t rest s)))
    with (rng_pos s) by (symmetry; apply resumed_fields).
  set (s1 := set_coefficients _ _).
  assert (Hs1 : coefficients s1
                = Some (coefficients_from src (rng_pos s)
                          (Z.to_nat (threshold config)))) by reflexivity.
  erewrite bind_Done by reflexivity. rewrite Hs1. cbn [default].
  destruct (map_result G_multiply_hex _) as [cms|e].
  - erewrite bind_Done by reflexivity.
    erewrite bind_Done by reflexivity.
    erewrite bind_Done by reflexivity.
    rewrite broadcast_coefficients. exact Hs1.
  - erewrite bind_Failed by reflexivity. exact Hs1.
Qed.

(** *** Round 3: the shares that are sent *)





(** *** Round 7: waiting for public key shares *)






(** *** The ceremony *)

Variable cwd : string.
Variable JSON_stringify : KeyStore.HSMKeyMetadata -> string.

(** A ceremony that does not complete has written no file: the key
    store is called after round 7 only. *)
Lemma failed_ceremony_persists_nothing s h :
  match fst (fst (runDKGCeremony src config cwd JSON_stringify s h)) with
  | Done _ => True
  | _ =>
      KeyStore.files (snd (runDKGCeremony src config cwd JSON_stringify s h))
      = KeyStore.files h
  end.
Proof.
  unfold runDKGCeremony.
  destruct (rounds src config s) as [[[]|e|] s1]; try reflexivity.
  destruct (hsmStore config) as [store|] eqn:Hstore; [| exact I].
  unfold storeKeyShareInHSM. rewrite Hstore.
  destruct (myKeyShare s1) as [ks|]; [| exact I].
  set (metadata := KeyStore.Build_HSMKeyMetadata _ _ _ _ _).
  pose proof (KeyStoreFacts.store_throw_keeps_files src cwd JSON_stringify
                store ks metadata (rng_pos s1) h) as Hkeep.
  destruct (KeyStore.storeKeyShare src cwd JSON_stringify store ks metadata
              (rng_pos s1) h) as [[[name|e] h'] pos]; [exact I | exact Hkeep].
Qed.




(** *** Rounds 2 and 4: what is checked *)

(** A commitment passes exactly when it has [threshold] entries. *)
Lemma verifyCommitment_spec c :
  verifyCommitment config c = true
  <-> Z.of_nat (length (commitments c)) = threshold config.
Proof. unfold verifyCommitment. apply Z.eqb_eq. Qed.

(** Round 2 fails on the first entry, in the order of arrival, that has
    not [threshold] entries and names the sender under which it came. *)
Lemma verify_commitments_spec entries :
  (Forall (fun e => verifyCommitment config (snd e) = true) entries
   /\ verify_commitments config entries = Ok tt)
  \/ (exists good p c bad,
        entries = good ++ (p, c) :: bad
        /\ Forall (fun e => verifyCommitment config (snd e) = true) good
        /\ verifyCommitment config c = false
        /\ verify_commitments config entries
           = Throw (Error ("Invalid commitment from Party " +:+ pretty p))).
Proof.
  induction entries as [|[p c] entries IH].
  - left. split; [constructor | reflexivity].
  - cbn [verify_commitments].
    destruct (verifyCommitment config c) eqn:Hc.
    + destruct IH as [[Hall Hok] | (good & p' & c' & bad & -> & Hgood & Hc' & Hthrow)].
      * left. split; [constructor; assumption | exact Hok].
      * right. exists ((p, c) :: good), p', c', bad.
        repeat split; try assumption. constructor; assumption.
    + right. exists [], p, c, entries. repeat split; try assumption. constructor.
Qed.

End Rounds.

End RunFacts.

(* ===================================================================== *)
(** * Runs of the ceremony *)
(* ===================================================================== *)

Module Scenarios.
Import DKG RunFacts Example.

(** The state the examples start from is the one the constructor builds. *)
Example constructor_example ticks :
  constructor config5 1000 ticks 0 = Ok (start ticks).
Proof. reflexivity. Qed.

(** The constructor refuses a threshold above the number of parties. *)
Example constructor_refuses :
  constructor {| partyId := 1; threshold := 6; totalParties := 5;
                 timeout := 60000; hsmStore := None |} 0 [] 0
  = Throw (Error "Threshold (6) cannot exceed total parties (5)").
Proof. reflexivity. Qed.

(** ** Sampling *)

(** [sampled_coefficients] at the counting entropy source. *)
Lemma sampled_coefficients_example :
  schedule (start [quiet 1]) = [quiet 1]
  /\ exists cs,
       coefficients (snd (round1_GenerateCommitments (H:=primitives) counting
                            config5 (start [quiet 1]))) = Some cs
       /\ cs = coefficients_from counting (rng_pos (start [quiet 1]))
                 (Z.to_nat (threshold config5))
       /\ length cs = Z.to_nat (threshold config5)
       /\ Forall in_256_bits cs.
Proof.
  split; [reflexivity |].
  exact (sampled_coefficients (H:=primitives) counting config5
           (start [quiet 1]) (quiet 1) [] eq_refl).
Defined.

(** C7, as the claim has it, fails: an entropy source of zero bytes gives
    the coefficients 0, and one of bytes 255 gives [2^256 - 1], which is not
    below the group order. *)
Lemma coefficient_out_of_range :
  coefficients (snd (round1_GenerateCommitments (H:=primitives) zeros config5
                       (start [quiet 1]))) = Some [0; 0; 0]
  /\ coefficients (snd (round1_GenerateCommitments (H:=primitives) ones config5
                          (start [quiet 1])))
     = Some [2 ^ 256 - 1; 2 ^ 256 - 1; 2 ^ 256 - 1]
  /\ ~ Spec.in_scalar_range 0
  /\ ~ Spec.in_scalar_range (2 ^ 256 - 1).
Proof.
  split; [vm_compute; reflexivity |].
  split; [vm_compute; reflexivity |].
  unfold Spec.in_scalar_range. split; [lia |].
  vm_compute. intros [_ Hle]. apply Hle. reflexivity.
Qed.

(** ** Shares *)


(** C3: the code does not check a share.  Round 4 returns at once in every
    state.  In the ceremony in which peer 2 sends party 1 the value of its
    polynomial plus one, the share fails the check against the commitments
    of peer 2 (the honest value passes it), round 4 completes all the same,
    and the key share of round 5 is one more than with the honest share. *)
Theorem corrupted_share_is_summed :
  let Cs := map point_of_hex (commitments (peer_commitment 2)) in
  let honest := evaluate_polynomial (peer_coeffs 2) 1 in
  let s := after rounds_1_to_3 (start ticks_corrupting) in
  let s_honest := after rounds_1_to_3 (start (ticks_dropping 0 0)) in
  (forall s0, round4_VerifyShares s0 = (Done tt, s0))
  /\ vals (receivedShares s) !! 2 = Some corrupted_share
  /\ BigInt_0x (encryptedShare corrupted_share) = Some (honest + 1)
  /\ Spec.share_verifies Spec.exponents honest 1 Cs = true
  /\ Spec.share_verifies Spec.exponents (honest + 1) 1 Cs = false
  /\ round4_VerifyShares s = (Done tt, s)
  /\ fst (round5_ComputeKeyShare config5 s) = Done tt
  /\ (be_value <$> myKeyShare (after (round5_ComputeKeyShare config5) s))
     = ((fun v => v + 1) <$>
          (be_value <$> myKeyShare (after (round5_ComputeKeyShare config5) s_honest))).
Proof.
  cbv zeta. split; [intros s0; reflexivity |].
  repeat split; vm_compute; reflexivity.
Qed.

(** C6: the code does not check the proof.  Whether a commitment passes
    does not depend on its proof.  Peer 2 sends its commitments with an
    empty proof, which is not the proof its commitments have; the
    commitment passes and round 2 completes. *)
Theorem forged_proof_is_accepted :
  (forall cfg c p,
      verifyCommitment cfg (with_proof c p) = verifyCommitment cfg c)
  /\ c_proof forged_commitment = ""
  /\ generateCommitmentProof (H:=primitives) (peer_coeffs 2)
       (commitments forged_commitment) <> ""
  /\ verifyCommitment config5 forged_commitment = true
  /\ vals (receivedCommitments (after round1 (start ticks_forging))) !! 2
     = Some forged_commitment
  /\ fst (rounds_1_to_2 (start ticks_forging)) = Done tt.
Proof.
  split; [reflexivity |].
  split; [reflexivity |].
  split; [vm_compute; discriminate |].
  repeat split; vm_compute; reflexivity.
Qed.

(** ** A party that drops out *)



End Scenarios.

(* ===================================================================== *)
(** * The key store: a key from its storing to its deletion *)
(* ===================================================================== *)

Module KeyLifecycle.
Import KeyStore.

Lemma append_inj_l (s a b : string) : s +:+ a = s +:+ b -> a = b.
Proof. induction s as [|c s IH]; cbn; [auto | intros [= Heq]; auto]. Qed.

Lemma keyshare_is_not_metadata dir kid :
  path_join dir (kid +:+ ".keyshare") <> path_join dir (kid +:+ ".metadata.json").
Proof.
  unfold path_join. intros Heq.
  apply (append_inj_l dir) in Heq. cbn in Heq. injection Heq as Heq.
  apply (append_inj_l kid) in Heq. discriminate Heq.
Qed.

Section Lifecycle.
Context `{Primitives}.
Variable src : entropy.
Variable cwd : string.
Variable JSON_stringify : HSMKeyMetadata -> string.

Lemma stored_files cfg keyShare md pos h :
  provider cfg = FILE_BASED ->
  files (snd (fst (storeKeyShare src cwd JSON_stringify cfg keyShare md pos h)))
  = <[metadata_path cwd cfg md := list_byte_of_string (JSON_stringify md)]>
      (<[keyshare_path cwd cfg md :=
           match configured_password cfg with
           | Some pw => fst (encryptKeyShare src keyShare pw pos)
           | None => keyShare
           end]> (files h)).
Proof.
  intros Hp. unfold storeKeyShare, file_storeKeyShare. rewrite Hp.
  destruct (configured_password cfg) as [pw|].
  - destruct (encryptKeyShare src keyShare pw pos). reflexivity.
  - reflexivity.
Qed.

Lemma stored_keyshare_file cfg keyShare md pos h :
  provider cfg = FILE_BASED ->
  files (snd (fst (storeKeyShare src cwd JSON_stringify cfg keyShare md pos h)))
    !! keyshare_path cwd cfg md
  = Some match configured_password cfg with
         | Some pw => fst (encryptKeyShare src keyShare pw pos)
         | None => keyShare
         end.
Proof.
  intros Hp. rewrite stored_files by exact Hp.
  rewrite lookup_insert_ne
    by (intros Heq; symmetry in Heq; revert Heq; apply keyshare_is_not_metadata).
  apply lookup_insert_eq.
Qed.

(** A key that is not there: the three operations reject with [ENOENT] for the
    key share file and leave the files as they were. *)
Theorem missing_key_rejects cfg kid msg h :
  provider cfg = FILE_BASED ->
  files h !! path_join (keyDir cwd cfg) (kid +:+ ".keyshare") = None ->
  fst (sign cwd cfg msg kid h)
  = Throw (no_such_file (path_join (keyDir cwd cfg) (kid +:+ ".keyshare")))
  /\ fst (getPublicKey cwd cfg kid h)
     = Throw (no_such_file (path_join (keyDir cwd cfg) (kid +:+ ".keyshare")))
  /\ fst (deleteKey cwd cfg kid h)
     = Throw (Error ("ENOENT: no such file or directory, unlink '"
                       +:+ path_join (keyDir cwd cfg) (kid +:+ ".keyshare") +:+ "'"))
  /\ files (snd (sign cwd cfg msg kid h)) = files h
  /\ files (snd (getPublicKey cwd cfg kid h)) = files h
  /\ files (snd (deleteKey cwd cfg kid h)) = files h.
Proof.
  intros Hp Hnone.
  unfold sign, getPublicKey, deleteKey, file_sign, file_getPublicKey,
    file_deleteKey, load_keyShare, read_file, unlink, no_such_file.
  rewrite Hp. cbn [files logger]. rewrite Hnone. cbn [rbind fst snd files].
  repeat split; reflexivity.
Qed.

(** The key share file is there and the metadata file is not: [deleteKey]
    removes the key share and then rejects. *)
Theorem deleteKey_without_metadata cfg kid ks h :
  provider cfg = FILE_BASED ->
  files h !! path_join (keyDir cwd cfg) (kid +:+ ".keyshare") = Some ks ->
  files h !! path_join (keyDir cwd cfg) (kid +:+ ".metadata.json") = None ->
  fst (deleteKey cwd cfg kid h)
  = Throw (Error ("ENOENT: no such file or directory, unlink '"
                    +:+ path_join (keyDir cwd cfg) (kid +:+ ".metadata.json") +:+ "'"))
  /\ files (snd (deleteKey cwd cfg kid h))
     = delete (path_join (keyDir cwd cfg) (kid +:+ ".keyshare")) (files h).
Proof.
  intros Hp Hks Hmd.
  unfold deleteKey, file_deleteKey, unlink. rewrite Hp.
  cbn [files logger]. rewrite Hks. cbn [files].
  rewrite lookup_delete_ne by apply keyshare_is_not_metadata.
  rewrite Hmd. split; reflexivity.
Qed.

(** What was stored can be deleted: both files go, the key cannot be used
    any more, and a host that had neither file before is as it was. *)
Theorem delete_after_store cfg keyShare md pos h :
  provider cfg = FILE_BASED ->
  let h1 := snd (fst (storeKeyShare src cwd JSON_stringify cfg keyShare md pos h)) in
  let h2 := snd (deleteKey cwd cfg (keyId md) h1) in
  fst (deleteKey cwd cfg (keyId md) h1) = Ok tt
  /\ files h2
     = delete (metadata_path cwd cfg md) (delete (keyshare_path cwd cfg md) (files h))
  /\ (forall msg,
        fst (sign cwd cfg msg (keyId md) h2)
        = Throw (no_such_file (keyshare_path cwd cfg md)))
  /\ (files h !! keyshare_path cwd cfg md = None ->
      files h !! metadata_path cwd cfg md = None ->
      files h2 = files h).
Proof.
  intros Hp. cbv zeta.
  pose proof (stored_files cfg keyShare md pos h Hp) as Hfiles.
  set (h1 := snd (fst (storeKeyShare src cwd JSON_stringify cfg keyShare md pos h))) in *.
  set (data := match configured_password cfg with
               | Some pw => fst (encryptKeyShare src keyShare pw pos)
               | None => keyShare
               end) in *.
  assert (Hne : keyshare_path cwd cfg md <> metadata_path cwd cfg md)
    by apply keyshare_is_not_metadata.
  assert (Hdel : deleteKey cwd cfg (keyId md) h1
                 = (Ok tt,
                    logger ("Key deleted: " +:+ keyId md)
                      {| files := delete (metadata_path cwd cfg md)
                                    (delete (keyshare_path cwd cfg md) (files h1));
                         log := log (logger ("Deleting key: " +:+ keyId md) h1) |})).
  { unfold deleteKey, file_deleteKey, unlink. rewrite Hp. cbn [files logger].
    fold (keyshare_path cwd cfg md). fold (metadata_path cwd cfg md).
    rewrite Hfiles.
    rewrite lookup_insert_ne by (intros Heq; apply Hne; now symmetry).
    rewrite lookup_insert_eq. cbn [files].
    rewrite lookup_delete_ne by exact Hne.
    rewrite lookup_insert_eq. reflexivity. }
  rewrite Hdel. cbn [fst snd files logger].
  assert (Hgone : delete (metadata_path cwd cfg md)
                    (delete (keyshare_path cwd cfg md) (files h1))
                  = delete (metadata_path cwd cfg md)
                      (delete (keyshare_path cwd cfg md) (files h))).
  { rewrite Hfiles. apply map_eq. intros p.
    rewrite !lookup_delete, !lookup_insert.
    repeat case_decide; congruence. }
  rewrite Hgone. repeat split.
  - intros msg. unfold sign, file_sign, load_keyShare, read_file, no_such_file.
    rewrite Hp. cbn [files logger fst].
    fold (keyshare_path cwd cfg md).
    rewrite lookup_delete_ne by (intros Heq; apply Hne; now symmetry).
    rewrite lookup_delete_eq. reflexivity.
  - intros Hk Hm. rewrite (delete_id (files h) _ Hk). apply delete_id, Hm.
Qed.

(** The stores of the cloud providers take a key share and keep nothing:
    [storeKeyShare] returns the key id without a file written, and every
    later [sign] and [getPublicKey] rejects. *)
Theorem remote_store_keeps_nothing cfg keyShare md pos h :
  provider cfg = AWS_CLOUDHSM \/ provider cfg = AZURE_KEY_VAULT ->
  fst (fst (storeKeyShare src cwd JSON_stringify cfg keyShare md pos h))
  = Ok (keyId md)
  /\ files (snd (fst (storeKeyShare src cwd JSON_stringify cfg keyShare md pos h)))
     = files h
  /\ (forall msg kid h',
        exists e, fst (sign cwd cfg msg kid h') = Throw e)
  /\ (forall kid h',
        exists e, fst (getPublicKey cwd cfg kid h') = Throw e).
Proof.
  unfold storeKeyShare, sign, getPublicKey.
  intros [Hp|Hp]; rewrite Hp; repeat split; intros; eexists; reflexivity.
Qed.

End Lifecycle.

Section Used.
Context `{AuthenticatedCipher}.
Variable src : entropy.
Variable cwd : string.
Variable JSON_stringify : HSMKeyMetadata -> string.

Lemma decrypt_after_encrypt keyShare pw pos :
  decryptKeyShare (fst (encryptKeyShare src keyShare pw pos)) pw = Ok keyShare.
Proof.
  unfold encryptKeyShare.
  destruct (randomBytes src 32 pos) as [salt pos1] eqn:Esalt.
  destruct (randomBytes src 16 pos1) as [iv pos2] eqn:Eiv.
  destruct (cipher "aes-256-gcm" (pbkdf2Sync pw salt 100000 32 "sha256") iv
              keyShare) as [ct tag] eqn:Ecipher.
  assert (Hsalt : length salt = 32%nat)
    by (rewrite <- (KeyStoreFacts.randomBytes_length src 32 pos), Esalt; reflexivity).
  assert (Hiv : length iv = 16%nat)
    by (rewrite <- (KeyStoreFacts.randomBytes_length src 16 pos1), Eiv; reflexivity).
  assert (Htag : length tag = 16%nat).
  { pose proof (tag_length "aes-256-gcm"
                  (pbkdf2Sync pw salt 100000 32 "sha256") iv keyShare) as Ht.
    now rewrite Ecipher in Ht. }
  cbn [fst]. unfold decryptKeyShare. cbv zeta.
  destruct (KeyStoreFacts.layout_slices salt iv tag ct Hsalt Hiv Htag)
    as (-> & -> & -> & ->).
  pose proof (decipher_cipher "aes-256-gcm"
                (pbkdf2Sync pw salt 100000 32 "sha256") iv keyShare) as Hd.
  now rewrite Ecipher in Hd.
Qed.

Lemma load_keyShare_logger cfg kid line h :
  load_keyShare cwd cfg kid (logger line h) = load_keyShare cwd cfg kid h.
Proof. reflexivity. Qed.

Lemma load_after_store cfg keyShare md pos h :
  provider cfg = FILE_BASED ->
  load_keyShare cwd cfg (keyId md)
    (snd (fst (storeKeyShare src cwd JSON_stringify cfg keyShare md pos h)))
  = Ok keyShare.
Proof.
  intros Hp. unfold load_keyShare, read_file.
  fold (keyshare_path cwd cfg md).
  rewrite (stored_keyshare_file src cwd JSON_stringify cfg keyShare md pos h Hp).
  cbn [rbind].
  destruct (configured_password cfg) as [pw|]; [| reflexivity].
  apply decrypt_after_encrypt.
Qed.

Lemma use_after_store cfg keyShare md pos h :
  provider cfg = FILE_BASED ->
  (forall msg,
      fst (sign cwd cfg msg (keyId md)
             (snd (fst (storeKeyShare src cwd JSON_stringify cfg keyShare md pos h))))
      = schnorr_sign msg keyShare)
  /\ fst (getPublicKey cwd cfg (keyId md)
            (snd (fst (storeKeyShare src cwd JSON_stringify cfg keyShare md pos h))))
     = schnorr_getPublicKey keyShare.
Proof.
  intros Hp.
  pose proof (load_after_store cfg keyShare md pos h Hp) as Hload.
  split.
  - intros msg. unfold sign, file_sign. rewrite Hp. cbn [fst].
    now rewrite load_keyShare_logger, Hload.
  - unfold getPublicKey, file_getPublicKey. rewrite Hp. cbn [fst].
    now rewrite load_keyShare_logger, Hload.
Qed.

(** The file based store signs with the key share it was given: after
    [storeKeyShare], [sign] and [getPublicKey] under the stored id are
    [schnorr.sign] and [schnorr.getPublicKey] of that key share, with a
    password configured or without. *)
Theorem stored_key_share_is_used cfg keyShare md pos h msg :
  provider cfg = FILE_BASED ->
  let h' := snd (fst (storeKeyShare src cwd JSON_stringify cfg keyShare md pos h)) in
  fst (fst (storeKeyShare src cwd JSON_stringify cfg keyShare md pos h))
  = Ok (keyId md)
  /\ fst (sign cwd cfg msg (keyId md) h') = schnorr_sign msg keyShare
  /\ fst (getPublicKey cwd cfg (keyId md) h') = schnorr_getPublicKey keyShare.
Proof.
  intros Hp. cbv zeta.
  destruct (use_after_store cfg keyShare md pos h Hp) as [Hsign Hpub].
  split; [| split; [apply Hsign | exact Hpub]].
  apply (KeyStoreFacts.storeKeyShare_returns src cwd JSON_stringify cfg FILE_BASED).
  unfold constructor. now rewrite Hp.
Qed.

End Used.

(** ** At the stores of the examples *)

Lemma missing_key_rejects_example :
  fst (sign (H:=Example.primitives) "/srv" Example.plain_config [] "validator-party-1"
         Example.empty_host)
  = Throw (Error "ENOENT: no such file or directory, open './keys/validator-party-1.keyshare'").
Proof.
  exact (proj1 (missing_key_rejects (H:=Example.primitives) "/srv"
                  Example.plain_config "validator-party-1" [] Example.empty_host
                  eq_refl eq_refl)).
Defined.

Lemma deleteKey_without_metadata_example :
  files (snd (deleteKey "/srv" Example.plain_config "validator-party-1" Example.orphan_host))
  = delete "./keys/validator-party-1.keyshare" (files Example.orphan_host).
Proof.
  exact (proj2 (deleteKey_without_metadata "/srv" Example.plain_config
                  "validator-party-1" Example.share1 Example.orphan_host
                  eq_refl eq_refl eq_refl)).
Defined.

Lemma delete_after_store_example :
  files (snd (deleteKey "/srv" Example.encrypted_config "validator-party-1"
                (snd (fst (storeKeyShare (H:=Example.primitives) Example.counting
                             "/srv" Example.JSON_stringify Example.encrypted_config
                             Example.share1 Example.metadata1 0 Example.empty_host)))))
  = files Example.empty_host.
Proof.
  exact (proj2 (proj2 (proj2
           (delete_after_store (H:=Example.primitives) Example.counting "/srv"
              Example.JSON_stringify Example.encrypted_config Example.share1
              Example.metadata1 0 Example.empty_host eq_refl)))
           eq_refl eq_refl).
Defined.

Lemma remote_store_keeps_nothing_example :
  fst (fst (storeKeyShare (H:=Example.primitives) Example.counting "/srv"
              Example.JSON_stringify Example.aws_config Example.share1
              Example.metadata1 0 Example.empty_host))
  = Ok "validator-party-1"
  /\ exists e,
       fst (sign (H:=Example.primitives) "/srv" Example.aws_config []
              "validator-party-1" Example.empty_host) = Throw e.
Proof.
  pose proof (remote_store_keeps_nothing (H:=Example.primitives) Example.counting
                "/srv" Example.JSON_stringify Example.aws_config Example.share1
                Example.metadata1 0 Example.empty_host (or_introl eq_refl))
    as (Hstore & _ & Hsign & _).
  split; [exact Hstore | apply Hsign].
Defined.

Lemma stored_key_share_is_used_example :
  fst (sign (H:=Example.primitives) "/srv" Example.encrypted_config
         [Byte.x2a] "validator-party-1"
         (snd (fst (storeKeyShare (H:=Example.primitives) Example.counting "/srv"
                      Example.JSON_stringify Example.encrypted_config
                      Example.share1 Example.metadata1 0 Example.empty_host))))
  = Ok (Example.share1 ++ [Byte.x2a]).
Proof.
  exact (proj1 (proj2
           (stored_key_share_is_used (H0:=KeyStoreFacts.example_cipher)
              Example.counting "/srv" Example.JSON_stringify
              Example.encrypted_config Example.share1 Example.metadata1 0
              Example.empty_host [Byte.x2a] eq_refl))).
Defined.

End KeyLifecycle.
